(** * web-safe-checker: the two scanner components, embedded and verified

    The repository holds two React components:
    - [SecurityScanner] (src/components/SecurityScanner.tsx), the simulated
      dual-check scanner, called Component A in the specification;
    - [WebsiteSecurityChecker] (src/components/WebsiteSecurityChecker.tsx),
      the live Safe Browsing client, called Component B.

    JavaScript strings are sequences of UTF-16 code units; they are modelled
    as lists of [N].  React state is a record, the setters and the other
    observable calls (toast, console, fetch, setTimeout) are recorded in an
    event log, and exceptions are explicit completions. *)

From Stdlib Require Import List NArith ZArith Bool String Ascii DecimalString
  PrimFloat Floats Lia.
From Stdlib Require DecimalN DecimalPos.
Import ListNotations.

Set Implicit Arguments.
(* The source writes the threshold as the decimal 0.3; it denotes the
   nearest double, here as in JavaScript. *)
#[local] Set Warnings "-inexact-float".

(** ** JavaScript strings *)

Definition jsstring := list N.

(** An ASCII literal of the source, as a sequence of code units. *)
Definition lit (s : string) : jsstring :=
  List.map N_of_ascii (list_ascii_of_string s).

Fixpoint jsstring_eqb (s t : jsstring) : bool :=
  match s, t with
  | [], [] => true
  | c :: s', d :: t' => N.eqb c d && jsstring_eqb s' t'
  | _, _ => false
  end.

(** [s.startsWith(p)] *)
Fixpoint startsWith (s p : jsstring) {struct p} : bool :=
  match p with
  | [] => true
  | c :: p' =>
      match s with
      | [] => false
      | d :: s' => N.eqb d c && startsWith s' p'
      end
  end.

(** [s.includes(t)] *)
Fixpoint includes (s t : jsstring) : bool :=
  startsWith s t ||
  match s with
  | [] => false
  | _ :: s' => includes s' t
  end.

(** WhiteSpace and LineTerminator code points of ECMAScript, the ones
    [String.prototype.trim] removes. *)
Definition is_js_whitespace (c : N) : bool :=
  existsb (N.eqb c)
    [9; 10; 11; 12; 13; 32; 160; 5760; 8232; 8233; 8239; 8287; 12288; 65279]%N
  || (8192 <=? c)%N && (c <=? 8202)%N.

Fixpoint dropWhile (A : Type) (p : A -> bool) (l : list A) : list A :=
  match l with
  | [] => []
  | a :: l' => if p a then dropWhile p l' else l
  end.

Definition trimStart (s : jsstring) : jsstring := dropWhile is_js_whitespace s.
Definition trimEnd (s : jsstring) : jsstring := rev (dropWhile is_js_whitespace (rev s)).

(** [s.trim()] *)
Definition trim (s : jsstring) : jsstring := trimEnd (trimStart s).

(** A string is falsy exactly when it is empty: [!s]. *)
Definition is_empty (s : jsstring) : bool :=
  match s with [] => true | _ :: _ => false end.

(** [threat.replace(/_/g, ' ')] *)
Definition replace_underscores (s : jsstring) : jsstring :=
  List.map (fun c => if N.eqb c 95 then 32%N else c) s.

(** The string of a non-negative integer Number, as a template literal
    prints it.  [Response.status] is an unsigned short, far below the
    magnitude at which Number printing switches to exponent notation. *)
Definition number_to_string (n : N) : jsstring :=
  lit (NilEmpty.string_of_uint (N.to_uint n)).

(** ** Thrown values *)

Inductive ErrorClass := ErrorC | TypeErrorC | SyntaxErrorC.

(** What a [throw] or a rejected promise carries: an object that is an
    instance of [Error] (of one of its classes), or any other value. *)
Inductive Thrown :=
| ErrorObj (cls : ErrorClass) (message : jsstring)
| NonError.

Definition instanceof_Error (e : Thrown) : bool :=
  match e with ErrorObj _ _ => true | NonError => false end.

Definition instanceof_TypeError (e : Thrown) : bool :=
  match e with ErrorObj TypeErrorC _ => true | _ => false end.

(** [error.message], read only where [error] is known to be an [Error]. *)
Definition message_of (e : Thrown) : jsstring :=
  match e with ErrorObj _ m => m | NonError => [] end.

(** [new Error(msg)] *)
Definition new_Error (msg : jsstring) : Thrown := ErrorObj ErrorC msg.

Inductive Result (A : Type) :=
| Ok (a : A)
| Thrw (e : Thrown).
Arguments Thrw {A} e.

(** ** The platform's URL constructor

    [new URL(s)] belongs to the browser, not to the repository.  The
    components read two properties of the object it returns. *)

Record URL := mkURL { href : jsstring; hostname : jsstring }.

(** The constructor either returns a URL object or throws a TypeError. *)
Definition URLConstructor := jsstring -> option URL.

(** The string handed to [new URL] by both [validateUrl] functions
    (the [if] of lines 31-33 in Component A, 30-32 in Component B). *)
Definition with_scheme (inputUrl : jsstring) : jsstring :=
  if negb (startsWith inputUrl (lit "http://")) &&
     negb (startsWith inputUrl (lit "https://"))
  then lit "https://" ++ inputUrl
  else inputUrl.

(** What [validateUrl] makes of the constructor's answer: the property it
    reads, or the validation error of its [catch]. *)
Definition parsed_as (proj : URL -> jsstring) (o : option URL) : Result jsstring :=
  match o with
  | Some urlObj => Ok (proj urlObj)
  | None => Thrw (new_Error (lit "Please enter a valid URL"))
  end.

Definition ascii_lower (c : N) : N :=
  if (65 <=? c)%N && (c <=? 90)%N then (c + 32)%N else c.

(** An input has an http or https scheme when it begins, in any letter
    case, with [http:] or [https:]. *)
Definition has_http_scheme (s : jsstring) : bool :=
  let l := List.map ascii_lower s in
  startsWith l (lit "http:") || startsWith l (lit "https:").

(** ** A fragment of the URL Standard's parser

    [new URL(s)] runs the basic URL parser of the WHATWG URL Standard on [s]
    without a base URL.  [WHATWG.parse] follows that parser on the inputs
    that need none of its heavier parts, and says [Unmodelled] on the others:
    schemes other than a literal [http://] or [https://] prefix, credentials,
    IPv6 and IPv4 hosts, percent-encoded, non-ASCII or punycode hosts, host
    names with punctuation other than [-], [.] and [_], backslashes after
    the authority, dot segments, and path, query or fragment characters
    that could be percent-encoded. *)

Module WHATWG.

Inductive Outcome :=
| Parsed (u : URL)
| Failure
| Unmodelled.

Definition is_c0_or_space (c : N) : bool := (c <=? 32)%N.
Definition is_tab_or_newline (c : N) : bool :=
  N.eqb c 9 || N.eqb c 10 || N.eqb c 13.

(** Leading and trailing C0 control or space are stripped, then every
    ASCII tab or newline is removed. *)
Definition preprocess (input : jsstring) : jsstring :=
  filter (fun c => negb (is_tab_or_newline c))
    (rev (dropWhile is_c0_or_space (rev (dropWhile is_c0_or_space input)))).

Definition is_slash (c : N) : bool := N.eqb c 47 || N.eqb c 92.

(** The code points that end the authority of a special URL:
    [/], [?], [#] and [\]. *)
Definition ends_authority (c : N) : bool :=
  N.eqb c 47 || N.eqb c 63 || N.eqb c 35 || N.eqb c 92.

(** [span_until p l]: the longest prefix of [l] with no element
    satisfying [p], and the rest. *)
Fixpoint span_until (p : N -> bool) (l : jsstring) : jsstring * jsstring :=
  match l with
  | [] => ([], [])
  | c :: l' =>
      if p c then ([], l)
      else let '(a, b) := span_until p l' in (c :: a, b)
  end.

Definition is_digit (c : N) : bool := (48 <=? c)%N && (c <=? 57)%N.
Definition is_alpha (c : N) : bool :=
  (65 <=? c)%N && (c <=? 90)%N || (97 <=? c)%N && (c <=? 122)%N.

(** Forbidden domain code points: the forbidden host code points, the C0
    controls, [%] and DELETE. *)
Definition forbidden_domain_code_point (c : N) : bool :=
  (c <=? 32)%N || N.eqb c 127 ||
  existsb (N.eqb c) (lit "#/:<>?@[\]^|%").

(** Splitting on a separator, strictly: [split_on 46 "a.b"] is
    [["a"; "b"]]. *)
Fixpoint split_on (sep : N) (l : jsstring) : list jsstring :=
  match l with
  | [] => [[]]
  | c :: l' =>
      if N.eqb c sep then [] :: split_on sep l'
      else match split_on sep l' with
           | [] => [[c]]
           | seg :: segs => (c :: seg) :: segs
           end
  end.

(** The label checked by the ends-in-a-number checker: the last one,
    after one trailing empty label is dropped. *)
Definition last_label (host : jsstring) : jsstring :=
  let parts := rev (split_on 46 host) in
  match parts with
  | [] :: (p :: _) => p
  | p :: _ => p
  | [] => []
  end.

Definition starts_with_digit (s : jsstring) : bool :=
  match s with c :: _ => is_digit c | [] => false end.

Definition is_punycode_label (s : jsstring) : bool :=
  startsWith (List.map ascii_lower s) (lit "xn--").

(** The characters of the host names kept in the fragment: letters,
    digits, [-], [.] and [_]. *)
Definition host_char (c : N) : bool :=
  is_alpha c || is_digit c || N.eqb c 45 || N.eqb c 46 || N.eqb c 95.

(** The host parser on a non-empty buffer of a special URL: [None] outside
    the fragment, [Some None] for failure, [Some (Some host)] for a domain.
    A domain is lowercased, refused when it holds a forbidden code point,
    and handed to the IPv4 parser when its last label is a number. *)
Definition parse_host (buffer : jsstring) : option (option jsstring) :=
  if existsb (fun c => N.eqb c 91 || N.eqb c 37 || (128 <=? c)%N) buffer then None
  else if existsb is_punycode_label (split_on 46 buffer) then None
  else
    let asciiDomain := List.map ascii_lower buffer in
    if existsb forbidden_domain_code_point asciiDomain then Some None
    else if starts_with_digit (last_label asciiDomain) then None
    else if negb (forallb host_char asciiDomain) then None
    else Some (Some asciiDomain).

Definition digits_value (s : jsstring) : N :=
  fold_left (fun acc c => (10 * acc + (c - 48))%N) s 0%N.

Definition default_port (secure : bool) : N := if secure then 443%N else 80%N.

(** The port state: [Some (Some p)] for a port that is serialized,
    [Some None] for no port or the scheme's own, [None] for failure. *)
Definition parse_port (secure : bool) (buffer : jsstring) : option (option N) :=
  if negb (forallb is_digit buffer) then None
  else if is_empty buffer then Some None
  else
    let port := digits_value buffer in
    if (65535 <? port)%N then None
    else if N.eqb port (default_port secure) then Some None
    else Some (Some port).

(** Characters that no percent-encode set of the parser touches. *)
Definition plain (c : N) : bool :=
  is_alpha c || is_digit c || existsb (N.eqb c) (lit "-._~!$&()*+,;=:@/").

Definition is_dot_segment (seg : jsstring) : bool :=
  jsstring_eqb seg (lit ".") || jsstring_eqb seg (lit "..").

Definition scheme_of (secure : bool) : jsstring :=
  if secure then lit "https" else lit "http".

(** From the special authority slashes state on: [rest] is what follows
    [scheme:]. *)
Definition parse_special (secure : bool) (rest : jsstring) : Outcome :=
  let after_slashes := dropWhile is_slash rest in
  let '(authority, tail) := span_until ends_authority after_slashes in
  if existsb (N.eqb 64) authority then Unmodelled
  else
    let '(host_buffer, port_part) := span_until (N.eqb 58) authority in
    if is_empty host_buffer then Failure
    else
      match parse_host host_buffer with
      | None => Unmodelled
      | Some None => Failure
      | Some (Some host) =>
          match parse_port secure (tl port_part) with
          | None => Failure
          | Some port =>
              let '(path, after_path) :=
                span_until (fun c => N.eqb c 63 || N.eqb c 35) tail in
              let '(query, fragment) := span_until (N.eqb 35) after_path in
              if negb (forallb plain path && forallb plain (tl query)
                       && forallb plain (tl fragment))
                 || existsb is_dot_segment (split_on 47 path)
              then Unmodelled
              else
                let authority_out :=
                  host ++ match port with
                          | Some p => lit ":" ++ number_to_string p
                          | None => []
                          end in
                let path_out := if is_empty path then lit "/" else path in
                Parsed {| href := scheme_of secure ++ lit "://" ++ authority_out
                                  ++ path_out ++ query ++ fragment;
                          hostname := host |}
          end
      end.

Definition parse (input : jsstring) : Outcome :=
  let s := preprocess input in
  if startsWith s (lit "https://") then parse_special true (skipn 6 s)
  else if startsWith s (lit "http://") then parse_special false (skipn 5 s)
  else Unmodelled.

(** A URL constructor agrees with the fragment when it returns what the
    fragment computes wherever the fragment is defined. *)
Definition agrees (URL_new : URLConstructor) : Prop :=
  forall s,
    match parse s with
    | Parsed u => URL_new s = Some u
    | Failure => URL_new s = None
    | Unmodelled => True
    end.

(** The constructor that throws outside the fragment. *)
Definition strict (s : jsstring) : option URL :=
  match parse s with
  | Parsed u => Some u
  | Failure | Unmodelled => None
  end.

End WHATWG.

(** ** Effects: component state, event log and completions

    A piece of component code is a function from the component's state to
    a completion, the state it leaves and the events it emitted, in order. *)

Section Effects.

Variables St Ev : Type.

Definition M (A : Type) : Type := St -> Result A * St * list Ev.

Definition ret (A : Type) (a : A) : M A := fun s => (Ok a, s, []).

Definition bind (A B : Type) (m : M A) (k : A -> M B) : M B :=
  fun s =>
    match m s with
    | (Ok a, s1, l1) => let '(r, s2, l2) := k a s1 in (r, s2, l1 ++ l2)
    | (Thrw e, s1, l1) => (Thrw e, s1, l1)
    end.

Definition throw (A : Type) (e : Thrown) : M A := fun s => (Thrw e, s, []).

Definition emit (e : Ev) : M unit := fun s => (Ok tt, s, [e]).

Definition read (A : Type) (f : St -> A) : M A := fun s => (Ok (f s), s, []).

Definition modify (f : St -> St) : M unit := fun s => (Ok tt, f s, []).

Definition lift (A : Type) (r : Result A) : M A := fun s => (r, s, []).

(** [try { body } catch (error) { handler error }] *)
Definition try_catch (A : Type) (body : M A) (handler : Thrown -> M A) : M A :=
  fun s =>
    match body s with
    | (Ok a, s1, l1) => (Ok a, s1, l1)
    | (Thrw e, s1, l1) => let '(r, s2, l2) := handler e s1 in (r, s2, l1 ++ l2)
    end.

(** [try { body } finally { cleanup }]: the cleanup runs on every
    completion of the body, and its own abrupt completion wins. *)
Definition try_finally (A : Type) (body : M A) (cleanup : M unit) : M A :=
  fun s =>
    let '(r, s1, l1) := body s in
    match cleanup s1 with
    | (Ok _, s2, l2) => (r, s2, l1 ++ l2)
    | (Thrw e, s2, l2) => (Thrw e, s2, l1 ++ l2)
    end.

End Effects.

Arguments ret {St Ev A} a.
Arguments throw {St Ev A} e.
Arguments emit {St Ev} e.
Arguments read {St Ev A} f.
Arguments modify {St Ev} f.
Arguments lift {St Ev A} r.

Declare Scope js_scope.
Delimit Scope js_scope with js.
Notation "x <- m ;; k" := (bind m (fun x => k))
  (at level 61, m at next level, right associativity) : js_scope.
Notation "m ;;; k" := (bind m (fun _ => k))
  (at level 61, right associativity) : js_scope.

(** The [variant] of a toast; a call that gives none shows the default. *)
Inductive ToastVariant := default_variant | destructive.

Record Toast := mkToast {
  title : jsstring;
  description : jsstring;
  variant : ToastVariant
}.

(** ** Component B: WebsiteSecurityChecker.tsx *)

Module WebsiteSecurityChecker.

Record ThreatMatch := mkThreatMatch {
  threatType : jsstring;
  platformType : jsstring;
  threatEntryType : jsstring;
  threat_url : jsstring
}.

Record SafeBrowsingResponse := mkResponseBody {
  matches : option (list ThreatMatch)
}.

(** The type of the [result] state: [{ safe: boolean; threats?: string[] }]. *)
Record CheckResult := mkCheckResult {
  safe : bool;
  threats : option (list jsstring)
}.

Record State := mkState {
  url : jsstring;
  isChecking : bool;
  result : option CheckResult
}.

(** What [response.json()] settles to. *)
Inductive JsonOutcome :=
| JsonResolves (data : SafeBrowsingResponse)
| JsonRejects (e : Thrown).

Record Response := mkResponse { status : N; json : JsonOutcome }.

(** [response.ok]: the status is in the range 200-299. *)
Definition ok (r : Response) : bool :=
  (200 <=? status r)%N && (status r <=? 299)%N.

(** What the promise of [fetch] settles to. *)
Inductive FetchOutcome :=
| FetchResolves (r : Response)
| FetchRejects (e : Thrown).

Inductive Event :=
| EToast (t : Toast)
| ESetIsChecking (b : bool)
| ESetResult (r : option CheckResult)
| EFetch (threatEntryUrl : jsstring)
| EConsoleError (e : Thrown).

Section Component.

Variable URL_new : URLConstructor.
(** The network: what the request for a given URL entry settles to. *)
Variable network : jsstring -> FetchOutcome.

Definition validateUrl (inputUrl : jsstring) : Result jsstring :=
  let inputUrl :=
    if negb (startsWith inputUrl (lit "http://")) &&
       negb (startsWith inputUrl (lit "https://"))
    then lit "https://" ++ inputUrl
    else inputUrl in
  match URL_new inputUrl with
  | Some urlObj => Ok (href urlObj)
  | None => Thrw (new_Error (lit "Please enter a valid URL"))
  end.

Definition setIsChecking (b : bool) : M State Event unit :=
  (modify (fun s => mkState (url s) b (result s)) ;;;
   emit (ESetIsChecking b))%js.

Definition setResult (r : option CheckResult) : M State Event unit :=
  (modify (fun s => mkState (url s) (isChecking s) r) ;;;
   emit (ESetResult r))%js.

Definition toast (t d : string) (v : ToastVariant) : M State Event unit :=
  emit (EToast (mkToast (lit t) (lit d) v)).

(** The [await fetch(...)] of lines 56-78: a POST to the fixed
    [threatMatches:find] endpoint with a fixed body, but for the one
    threat entry [{ url: validatedUrl }]. *)
Definition fetch (validatedUrl : jsstring) : M State Event Response :=
  (emit (EFetch validatedUrl) ;;;
   match network validatedUrl with
   | FetchResolves r => ret r
   | FetchRejects e => throw e
   end)%js.

(** [await response.json()] *)
Definition await_json (response : Response) : M State Event SafeBrowsingResponse :=
  match json response with
  | JsonResolves data => ret data
  | JsonRejects e => throw e
  end.

(** The [try] block of [checkSafety], lines 52-100. *)
Definition checkSafety_try (url : jsstring) : M State Event unit :=
  (validatedUrl <- lift (validateUrl (trim url)) ;;
   setIsChecking true ;;;
   setResult None ;;;
   response <- fetch validatedUrl ;;
   if negb (ok response) then
     throw (new_Error (lit "API Error: " ++ number_to_string (status response)))
   else
     data <- await_json response ;;
     if match matches data with
        | None => true
        | Some ms => Nat.eqb (List.length ms) 0
        end
     then
       setResult (Some (mkCheckResult true None)) ;;;
       toast "Scan Complete" "Website is safe to visit" default_variant
     else
       let threats :=
         List.map threatType
           (match matches data with Some ms => ms | None => [] end) in
       setResult (Some (mkCheckResult false (Some threats))) ;;;
       toast "Security Warning" "Potential threats detected" destructive)%js.

(** The [catch] block, lines 101-117. *)
Definition checkSafety_catch (error : Thrown) : M State Event unit :=
  (emit (EConsoleError error) ;;;
   if instanceof_TypeError error && includes (message_of error) (lit "fetch")
   then
     toast "Connection Error"
       "Unable to connect to security service. This may be due to CORS restrictions."
       destructive
   else
     emit (EToast (mkToast (lit "Check Failed")
             (if instanceof_Error error then message_of error
              else lit "Failed to check website safety")
             destructive)))%js.

Definition checkSafety : M State Event unit :=
  (url <- read url ;;
   if is_empty (trim url) then
     toast "URL Required" "Please enter a website URL to check" destructive
   else
     try_finally
       (try_catch (checkSafety_try url) checkSafety_catch)
       (setIsChecking false))%js.

End Component.

(** *** The rendered view, lines 184-249 *)

Inductive ResultCard :=
| SafeCard
| UnsafeCard (tags : list jsstring).

Record View := mkView {
  buttonDisabled : bool;
  loadingCard : bool;
  resultCard : option ResultCard
}.

Definition render (s : State) : View :=
  {| buttonDisabled := isChecking s;
     loadingCard := isChecking s;
     resultCard :=
       match result s with
       | Some r =>
           if negb (isChecking s) then
             Some (if safe r then SafeCard
                   else UnsafeCard
                          (match threats r with
                           | Some ts => List.map replace_underscores ts
                           | None => []
                           end))
           else None
       | None => None
       end |}.

(** *** The check as the event loop runs it

    [checkSafety] is suspended twice: at [await fetch(...)] and at
    [await response.json()]. *)

Inductive Phase :=
| Idle
| AwaitingFetch (validatedUrl : jsstring)
| AwaitingJson (response : Response).

Record Config := mkConfig {
  st : State;
  phase : Phase;
  log : list Event
}.

Inductive Input :=
| TypeUrl (s : jsstring)            (* [onChange] of the input, line 156 *)
| Click                             (* [onClick] of the button, line 164 *)
| KeyPress (key : jsstring)         (* [onKeyPress] of the input, line 157 *)
| FetchSettled (o : FetchOutcome)   (* the promise of [fetch] settles *)
| JsonSettled.                      (* the promise of [json()] settles *)

(** Lines 52-78: from the [try] to the [await fetch]. *)
Definition request_begin (URL_new : URLConstructor) (url : jsstring)
  : M State Event jsstring :=
  (validatedUrl <- lift (validateUrl URL_new (trim url)) ;;
   setIsChecking true ;;;
   setResult None ;;;
   emit (EFetch validatedUrl) ;;;
   ret validatedUrl)%js.

(** Lines 56-82: what the awaited [fetch] gives, up to [await json()]. *)
Definition response_check (o : FetchOutcome) : M State Event Response :=
  (response <- match o with
               | FetchResolves r => ret r
               | FetchRejects e => throw e
               end ;;
   if negb (ok response) then
     throw (new_Error (lit "API Error: " ++ number_to_string (status response)))
   else ret response)%js.

(** Lines 84-100: from [await response.json()] to the end of the [try]. *)
Definition verdict (response : Response) : M State Event unit :=
  (data <- await_json response ;;
   if match matches data with
      | None => true
      | Some ms => Nat.eqb (List.length ms) 0
      end
   then
     setResult (Some (mkCheckResult true None)) ;;;
     toast "Scan Complete" "Website is safe to visit" default_variant
   else
     let threats :=
       List.map threatType
         (match matches data with Some ms => ms | None => [] end) in
     setResult (Some (mkCheckResult false (Some threats))) ;;;
     toast "Security Warning" "Potential threats detected" destructive)%js.

(** The [catch] and [finally] blocks after an error thrown in the [try]. *)
Definition fail (error : Thrown) : M State Event unit :=
  try_finally (checkSafety_catch error) (setIsChecking false).

(** [checkSafety] from its call to [await fetch], or to its end. *)
Definition checkSafety_to_fetch (URL_new : URLConstructor)
  : M State Event (option jsstring) :=
  (url <- read url ;;
   if is_empty (trim url) then
     toast "URL Required" "Please enter a website URL to check" destructive ;;;
     ret None
   else
     try_catch
       (validatedUrl <- request_begin URL_new url ;; ret (Some validatedUrl))
       (fun error => fail error ;;; ret None))%js.

Definition start (URL_new : URLConstructor) (c : Config) : Config :=
  let '(r, s', l) := checkSafety_to_fetch URL_new (st c) in
  {| st := s';
     phase := match r with
              | Ok (Some validatedUrl) => AwaitingFetch validatedUrl
              | _ => phase c
              end;
     log := log c ++ l |}.

Definition step (URL_new : URLConstructor) (c : Config) (i : Input) : Config :=
  match i with
  | TypeUrl s =>
      (* the input is disabled while checking, line 159 *)
      if isChecking (st c) then c
      else {| st := mkState s (isChecking (st c)) (result (st c));
              phase := phase c; log := log c |}
  | Click =>
      (* the button is disabled while checking, line 165 *)
      if isChecking (st c) then c else start URL_new c
  | KeyPress key =>
      (* [handleKeyPress], lines 123-127; the input is disabled while
         checking and then gets no key press *)
      if isChecking (st c) then c
      else if jsstring_eqb key (lit "Enter") && negb (isChecking (st c))
      then start URL_new c
      else c
  | FetchSettled o =>
      match phase c with
      | AwaitingFetch _ =>
          match response_check o (st c) with
          | (Ok response, s', l) =>
              {| st := s'; phase := AwaitingJson response; log := log c ++ l |}
          | (Thrw e, s', l) =>
              let '(_, s'', l') := fail e s' in
              {| st := s''; phase := Idle; log := log c ++ l ++ l' |}
          end
      | _ => c
      end
  | JsonSettled =>
      match phase c with
      | AwaitingJson response =>
          let '(_, s', l) :=
            try_finally (try_catch (verdict response) checkSafety_catch)
              (setIsChecking false) (st c) in
          {| st := s'; phase := Idle; log := log c ++ l |}
      | _ => c
      end
  end.

Definition run (URL_new : URLConstructor) (c : Config) (inputs : list Input)
  : Config :=
  fold_left (step URL_new) inputs c.

(** The component as mounted, lines 22-24. *)
Definition mounted : Config :=
  {| st := mkState [] false None; phase := Idle; log := [] |}.

(** The stored results [checkSafety] makes: safe without threats, or
    unsafe with at least one. *)
Definition well_formed (r : CheckResult) : Prop :=
  (safe r = true /\ threats r = None) \/
  (safe r = false /\ exists t ts, threats r = Some (t :: ts)).

(** Reading a log from the left, a request is opened by [fetch] and
    closed by the reset of the flag.  [requests_open opened l] tells
    whether one is open at the end of [l], and is [None] when [l] sends a
    request while one is open. *)
Fixpoint requests_open (opened : bool) (l : list Event) : option bool :=
  match l with
  | [] => Some opened
  | EFetch _ :: l' => if opened then None else requests_open true l'
  | ESetIsChecking false :: l' => requests_open false l'
  | _ :: l' => requests_open opened l'
  end.

Definition pending (ph : Phase) : bool :=
  match ph with
  | Idle => false
  | AwaitingFetch _ | AwaitingJson _ => true
  end.

(** What holds of every configuration the event loop reaches: the flag
    is true exactly while a check is pending, [result] is null meanwhile,
    and the log never has two requests open at once, one being open
    exactly while a check is pending. *)
Definition check_invariant (c : Config) : Prop :=
  isChecking (st c) = pending (phase c) /\
  (pending (phase c) = true -> result (st c) = None) /\
  requests_open false (log c) = Some (pending (phase c)).

(** The toasts a run showed, in order. *)
Definition toasts (l : list Event) : list Toast :=
  flat_map (fun e => match e with EToast t => [t] | _ => [] end) l.

(** The requests a run sent. *)
Definition requests (l : list Event) : list Event :=
  filter (fun e => match e with EFetch _ => true | _ => false end) l.

(** The toast the [catch] block shows for [error]. *)
Definition failure_toast (error : Thrown) : Toast :=
  if instanceof_TypeError error && includes (message_of error) (lit "fetch")
  then mkToast (lit "Connection Error")
         (lit "Unable to connect to security service. This may be due to CORS restrictions.")
         destructive
  else mkToast (lit "Check Failed")
         (if instanceof_Error error then message_of error
          else lit "Failed to check website safety")
         destructive.

End WebsiteSecurityChecker.

(** ** Component A: SecurityScanner.tsx *)

Module SecurityScanner.

Inductive SafeBrowsingStatus := safe | unsafe | unknown.
Inductive SslStatus := excellent | good | warning | poor.

(** The [safeBrowsing] field of [SecurityResult]. *)
Record SafeBrowsingRecord := mkSafeBrowsing {
  status : SafeBrowsingStatus;
  details : jsstring
}.

(** The [sslGrade] field of [SecurityResult]. *)
Record SslRecord := mkSsl {
  grade : jsstring;
  ssl_status : SslStatus;
  ssl_details : jsstring
}.

Record SecurityResult := mkSecurityResult {
  safeBrowsing : SafeBrowsingRecord;
  sslGrade : SslRecord
}.

Record State := mkState {
  url : jsstring;
  isScanning : bool;
  results : option SecurityResult
}.

Inductive Event :=
| EToast (t : Toast)
| ESetIsScanning (b : bool)
| ESetResults (r : option SecurityResult)
| EConsoleLog (label : jsstring) (arg : jsstring)
| ESetTimeout (ms : N)
| ESafeBrowsingReturned (r : SafeBrowsingRecord)  (* [return] of line 54 *)
| ESslReturned (r : SslRecord)                    (* [return] of line 76 *)
| ESslThrew (e : Thrown).

(** *** The bodies of the two mock checks after their timers *)

Definition mockSafeResults : list jsstring :=
  [lit "google.com"; lit "github.com"; lit "stackoverflow.com"].

(** Lines 51-57; [draw] is what [Math.random()] returns at line 52. *)
Definition checkSafeBrowsing (domain : jsstring) (draw : float) : SafeBrowsingRecord :=
  let isSafe :=
    existsb (fun safe => includes domain safe) mockSafeResults
    || PrimFloat.ltb 0.3%float draw in
  {| status := if isSafe then safe else unsafe;
     details := if isSafe then lit "No threats detected"
                else lit "Potential security threats found" |}.

Definition grades : list jsstring :=
  [lit "A+"; lit "A"; lit "A-"; lit "B"; lit "C"; lit "F"].

(** [l[Math.floor(x)]]: the element at the integer [k] with
    [k <= x < k + 1], undefined ([None]) when there is none; [k] counts
    the elements already passed. *)
Fixpoint index_floor (A : Type) (l : list A) (k x : float) : option A :=
  match l with
  | [] => None
  | a :: l' =>
      if PrimFloat.leb k x && PrimFloat.ltb x (PrimFloat.add k 1%float)
      then Some a
      else index_floor l' (PrimFloat.add k 1%float) x
  end.

(** The message of the TypeError a method call on [undefined] throws
    (the wording is the engine's). *)
Definition undefined_message : jsstring :=
  lit "Cannot read properties of undefined (reading 'startsWith')".

(** Lines 67-80; [draw] is what [Math.random()] returns at line 68. *)
Definition checkSSL (draw : float) : Result SslRecord :=
  match index_floor grades 0%float (PrimFloat.mul draw 6%float) with
  | None => Thrw (ErrorObj TypeErrorC undefined_message)
  | Some grade =>
      let status :=
        if startsWith grade (lit "A") then excellent
        else if jsstring_eqb grade (lit "B") then good
        else if jsstring_eqb grade (lit "C") then warning
        else poor in
      Ok {| grade := grade;
            ssl_status := status;
            ssl_details := lit "SSL certificate grade: " ++ grade |}
  end.

(** The draws of one scan. *)
Record Draws := mkDraws { sb_draw : float; ssl_draw : float }.

Section Component.

Variable URL_new : URLConstructor.

Definition validateUrl (inputUrl : jsstring) : Result jsstring :=
  let inputUrl :=
    if negb (startsWith inputUrl (lit "http://")) &&
       negb (startsWith inputUrl (lit "https://"))
    then lit "https://" ++ inputUrl
    else inputUrl in
  match URL_new inputUrl with
  | Some urlObj => Ok (hostname urlObj)
  | None => Thrw (new_Error (lit "Please enter a valid URL"))
  end.

Definition setIsScanning (b : bool) : M State Event unit :=
  (modify (fun s => mkState (url s) b (results s)) ;;;
   emit (ESetIsScanning b))%js.

Definition setResults (r : option SecurityResult) : M State Event unit :=
  (modify (fun s => mkState (url s) (isScanning s) r) ;;;
   emit (ESetResults r))%js.

Definition toast (t : Toast) : M State Event unit := emit (EToast t).

(** The calls [checkSafeBrowsing(domain)] and [checkSSL(domain)] of
    lines 100-101, up to the timer each of them awaits. *)
Definition start_checks (domain : jsstring) : M State Event unit :=
  (emit (EConsoleLog (lit "Checking Safe Browsing for:") domain) ;;;
   emit (ESetTimeout 1500) ;;;
   emit (EConsoleLog (lit "Checking SSL for:") domain) ;;;
   emit (ESetTimeout 2000))%js.

(** Lines 94-102, up to the [await]. *)
Definition scan_begin (url : jsstring) : M State Event jsstring :=
  (domain <- lift (validateUrl (trim url)) ;;
   setIsScanning true ;;;
   setResults None ;;;
   start_checks domain ;;;
   ret domain)%js.

(** Lines 104-112, from the [await] on. *)
Definition scan_complete (domain : jsstring)
    (safeBrowsingResult : SafeBrowsingRecord) (sslResult : SslRecord)
  : M State Event unit :=
  (setResults (Some {| safeBrowsing := safeBrowsingResult;
                       sslGrade := sslResult |}) ;;;
   toast (mkToast (lit "Scan Complete")
            (lit "Security scan completed for " ++ domain)
            default_variant))%js.

(** The [catch] block, lines 113-118. *)
Definition scan_catch (error : Thrown) : M State Event unit :=
  toast (mkToast (lit "Scan Failed")
           (if instanceof_Error error then message_of error
            else lit "Failed to scan website")
           destructive).

Definition url_required : M State Event unit :=
  toast (mkToast (lit "URL Required")
           (lit "Please enter a website URL to scan") destructive).

(** The two timers fire, the 1.5 s one first, and [Promise.all]
    settles: with both records, or with what [checkSSL] threw. *)
Definition await_checks (d : Draws) (domain : jsstring)
  : M State Event (SafeBrowsingRecord * SslRecord) :=
  (let sb := checkSafeBrowsing domain (sb_draw d) in
   emit (ESafeBrowsingReturned sb) ;;;
   match checkSSL (ssl_draw d) with
   | Ok ssl => emit (ESslReturned ssl) ;;; ret (sb, ssl)
   | Thrw e => emit (ESslThrew e) ;;; throw e
   end)%js.

(** The [try] block of [handleScan], lines 94-112. *)
Definition handleScan_try (d : Draws) (url : jsstring) : M State Event unit :=
  (domain <- scan_begin url ;;
   r <- await_checks d domain ;;
   scan_complete domain (fst r) (snd r))%js.

(** [handleScan], run to its end. *)
Definition handleScan (d : Draws) : M State Event unit :=
  (url <- read url ;;
   if is_empty (trim url) then url_required
   else
     try_finally
       (try_catch (handleScan_try d url) scan_catch)
       (setIsScanning false))%js.

(** *** The scan as the event loop runs it

    [handleScan] is suspended at its [await] while the two timers are
    pending.  A configuration holds the component state, what
    [Promise.all] has collected so far, and the events emitted. *)

Inductive Phase :=
| Idle
| Awaiting (domain : jsstring)
           (sb : option SafeBrowsingRecord) (ssl : option SslRecord).

Record Config := mkConfig {
  st : State;
  phase : Phase;
  log : list Event
}.

Inductive Input :=
| TypeUrl (s : jsstring)            (* [onChange] of the input, line 173 *)
| Activate                          (* a click on the button or Enter *)
| SafeBrowsingTimer (draw : float)  (* the 1.5 s timer fires *)
| SslTimer (draw : float).          (* the 2 s timer fires *)

(** [handleScan] from its call to its [await], or to its end when it
    does not get that far. *)
Definition handleScan_to_await : M State Event (option jsstring) :=
  (url <- read url ;;
   if is_empty (trim url) then url_required ;;; ret None
   else
     try_catch
       (domain <- scan_begin url ;; ret (Some domain))
       (fun error =>
          try_finally (scan_catch error) (setIsScanning false) ;;;
          ret None))%js.

(** [handleScan] from the settling of [Promise.all] to its end. *)
Definition handleScan_resume (domain : jsstring)
    (settled : Result (SafeBrowsingRecord * SslRecord))
  : M State Event unit :=
  try_finally
    (try_catch
       (r <- lift settled ;; scan_complete domain (fst r) (snd r))%js
       scan_catch)
    (setIsScanning false).

Definition resume (c : Config) (pre : list Event) (domain : jsstring)
    (settled : Result (SafeBrowsingRecord * SslRecord)) : Config :=
  let '(_, s', l) := handleScan_resume domain settled (st c) in
  {| st := s'; phase := Idle; log := log c ++ pre ++ l |}.

Definition step (c : Config) (i : Input) : Config :=
  match i with
  | TypeUrl s =>
      {| st := mkState s (isScanning (st c)) (results (st c));
         phase := phase c; log := log c |}
  | Activate =>
      (* the button is disabled and Enter is ignored while scanning *)
      if isScanning (st c) then c
      else
        let '(r, s', l) := handleScan_to_await (st c) in
        {| st := s';
           phase := match r with
                    | Ok (Some domain) => Awaiting domain None None
                    | _ => phase c
                    end;
           log := log c ++ l |}
  | SafeBrowsingTimer draw =>
      match phase c with
      | Awaiting domain None ssl =>
          let sb := checkSafeBrowsing domain draw in
          match ssl with
          | Some b => resume c [ESafeBrowsingReturned sb] domain (Ok (sb, b))
          | None =>
              {| st := st c; phase := Awaiting domain (Some sb) None;
                 log := log c ++ [ESafeBrowsingReturned sb] |}
          end
      | _ => c
      end
  | SslTimer draw =>
      match phase c with
      | Awaiting domain sb None =>
          match checkSSL draw with
          | Ok b =>
              match sb with
              | Some a => resume c [ESslReturned b] domain (Ok (a, b))
              | None =>
                  {| st := st c; phase := Awaiting domain None (Some b);
                     log := log c ++ [ESslReturned b] |}
              end
          | Thrw e => resume c [ESslThrew e] domain (Thrw e)
          end
      | _ => c
      end
  end.

Definition run (c : Config) (inputs : list Input) : Config :=
  fold_left step inputs c.

(** The component as mounted: the initial values of the three
    [useState] calls, lines 23-25. *)
Definition mounted : Config :=
  {| st := mkState [] false None; phase := Idle; log := [] |}.

End Component.

(** *** The rendered view, lines 199-269 *)

Record View := mkView {
  buttonDisabled : bool;
  loadingCard : bool;
  resultCards : option (SafeBrowsingRecord * SslRecord)
}.

Definition render (s : State) : View :=
  {| buttonDisabled := isScanning s;
     loadingCard := isScanning s;
     resultCards :=
       match results s with
       | Some r =>
           if negb (isScanning s) then Some (safeBrowsing r, sslGrade r)
           else None
       | None => None
       end |}.

(** *** Status icons, badges and cards, lines 124-148 and 217-269 *)

(** The string of a status, as the source writes it. *)
Definition status_text (st : SafeBrowsingStatus) : jsstring :=
  match st with
  | safe => lit "safe"
  | unsafe => lit "unsafe"
  | unknown => lit "unknown"
  end.

Definition ssl_status_text (st : SslStatus) : jsstring :=
  match st with
  | excellent => lit "excellent"
  | good => lit "good"
  | warning => lit "warning"
  | poor => lit "poor"
  end.

(** The three icons [getStatusIcon] returns, with their colours. *)
Inductive Icon := CheckCircle_green | AlertTriangle_yellow | XCircle_red.

(** The [switch] of lines 125-134, on any string. *)
Definition getStatusIcon (status : jsstring) : Icon :=
  if jsstring_eqb status (lit "safe") || jsstring_eqb status (lit "excellent")
  then CheckCircle_green
  else if jsstring_eqb status (lit "good") || jsstring_eqb status (lit "warning")
  then AlertTriangle_yellow
  else XCircle_red.

(** The [switch] of lines 138-147, on any string. *)
Definition getStatusBadgeClass (status : jsstring) : jsstring :=
  if jsstring_eqb status (lit "safe") || jsstring_eqb status (lit "excellent")
  then lit "status-badge-safe"
  else if jsstring_eqb status (lit "good") || jsstring_eqb status (lit "warning")
  then lit "status-badge-warning"
  else lit "status-badge-danger".

(** [s.charAt(0)]: the first code unit as a string, or the empty string. *)
Definition charAt0 (s : jsstring) : jsstring :=
  match s with
  | [] => []
  | c :: _ => [c]
  end.

Definition ascii_upper (c : N) : N :=
  if (97 <=? c)%N && (c <=? 122)%N then (c - 32)%N else c.

(** [s.toUpperCase()] on a string of ASCII code units, which the status
    strings are. *)
Definition toUpperCase (s : jsstring) : jsstring := List.map ascii_upper s.

(** What a result card shows: the icon, the text beside it, the class
    and the text of the badge. *)
Record Card := mkCard {
  icon : Icon;
  label : jsstring;
  badgeClass : jsstring;
  badgeText : jsstring
}.

(** The Safe Browsing card, lines 230-241. *)
Definition safeBrowsingCard (r : SafeBrowsingRecord) : Card :=
  {| icon := getStatusIcon (status_text (status r));
     label := if jsstring_eqb (status_text (status r)) (lit "safe")
              then lit "Safe" else lit "Unsafe";
     badgeClass := lit "border " ++ getStatusBadgeClass (status_text (status r));
     badgeText := details r |}.

(** The SSL card, lines 256-265. *)
Definition sslCard (r : SslRecord) : Card :=
  {| icon := getStatusIcon (ssl_status_text (ssl_status r));
     label := lit "Grade " ++ grade r;
     badgeClass := lit "border "
                   ++ getStatusBadgeClass (ssl_status_text (ssl_status r));
     badgeText := toUpperCase (charAt0 (ssl_status_text (ssl_status r)))
                  ++ tl (ssl_status_text (ssl_status r)) |}.

(** The toasts a run showed, in order. *)
Definition toasts (l : list Event) : list Toast :=
  flat_map (fun e => match e with EToast t => [t] | _ => [] end) l.

(** The scans a run started: the calls [setIsScanning(true)]. *)
Definition scan_starts (l : list Event) : nat :=
  List.length
    (filter (fun e => match e with ESetIsScanning true => true | _ => false end) l).

(** Inputs that are timers. *)
Definition is_timer (i : Input) : bool :=
  match i with
  | SafeBrowsingTimer _ | SslTimer _ => true
  | TypeUrl _ | Activate => false
  end.

(** The timers a run started: one per mock check. *)
Definition timers (l : list Event) : list Event :=
  filter (fun e => match e with ESetTimeout _ => true | _ => false end) l.

(** The toast the [catch] block shows for [error]. *)
Definition failure_toast (error : Thrown) : Toast :=
  mkToast (lit "Scan Failed")
    (if instanceof_Error error then message_of error
     else lit "Failed to scan website")
    destructive.

Definition is_setResults (e : Event) : bool :=
  match e with ESetResults _ => true | _ => false end.

(** [joined_before pre r]: in the events [pre], the last assignment to
    [results] is the clearing to null at a scan's start, and since then both
    checks have returned, the records they returned being the two fields
    of [r]. *)
Definition joined_before (pre : list Event) (r : SecurityResult) : Prop :=
  exists before since,
    pre = before ++ ESetResults None :: since /\
    forallb (fun e => negb (is_setResults e)) since = true /\
    In (ESafeBrowsingReturned (safeBrowsing r)) since /\
    In (ESslReturned (sslGrade r)) since.

(** What holds of every configuration the event loop reaches: every
    assignment of a record to [results] comes after the join, the stored
    record is one that was assigned, the flag is false when no scan is
    pending, and while one is pending the flag is true, [results] is null
    and what [Promise.all] holds was returned since the scan began. *)
Definition scan_invariant (c : Config) : Prop :=
  (forall pre r post,
     log c = pre ++ ESetResults (Some r) :: post -> joined_before pre r) /\
  (forall r,
     results (st c) = Some r ->
     exists pre post, log c = pre ++ ESetResults (Some r) :: post) /\
  match phase c with
  | Idle => isScanning (st c) = false
  | Awaiting _ sb ssl =>
      isScanning (st c) = true /\
      results (st c) = None /\
      exists before since,
        log c = before ++ ESetResults None :: since /\
        forallb (fun e => negb (is_setResults e)) since = true /\
        (forall a, sb = Some a -> In (ESafeBrowsingReturned a) since) /\
        (forall b, ssl = Some b -> In (ESslReturned b) since)
  end.

End SecurityScanner.

(** ** Running component code *)

Ltac js_unfold :=
  unfold try_finally, try_catch, bind, read, lift, emit, ret, throw, modify.

Ltac js_simpl := cbn -[lit trim number_to_string].

(** * Properties *)

Unset Implicit Arguments.

Module A := SecurityScanner.
Module B := WebsiteSecurityChecker.

(** ** Strings *)

Lemma startsWith_prefix (p r : jsstring) : startsWith (p ++ r) p = true.
Proof.
  induction p as [|c p IH]; simpl; [reflexivity|].
  now rewrite N.eqb_refl, IH.
Qed.

Lemma startsWith_split (s p : jsstring) :
  startsWith s p = true -> exists r, s = p ++ r.
Proof.
  revert s; induction p as [|c p IH]; intros s H.
  - now exists s.
  - destruct s as [|d s]; simpl in H; [discriminate|].
    apply andb_true_iff in H as [Hc Hs].
    apply N.eqb_eq in Hc; subst d.
    destruct (IH _ Hs) as [r ->]. now exists r.
Qed.

Lemma includes_split (s t : jsstring) :
  includes s t = true <-> exists a b, s = a ++ t ++ b.
Proof.
  split.
  - induction s as [|c s IH]; simpl; intros H.
    + apply orb_true_iff in H as [H|H]; [|discriminate].
      apply startsWith_split in H as [r ->]. now exists [], r.
    + apply orb_true_iff in H as [H|H].
      * apply startsWith_split in H as [r ->]. now exists [], r.
      * destruct (IH H) as (a & b & ->). now exists (c :: a), b.
  - intros (a & b & ->). induction a as [|c a IH].
    + pose proof (startsWith_prefix t b) as H. cbn [app].
      destruct (t ++ b); simpl; now rewrite H.
    + cbn [app includes]. rewrite IH. apply orb_true_r.
Qed.

Example startsWith_is_case_sensitive :
  startsWith (lit "HTTP://example.com") (lit "http://") = false /\
  startsWith (lit "https://example.com") (lit "https://") = true.
Proof. split; reflexivity. Qed.

Example trim_examples :
  trim (lit "  example.com ") = lit "example.com" /\
  trim (lit "not a url") = lit "not a url" /\
  trim [32; 9; 160; 8195; 10]%N = [].
Proof. repeat split. Qed.

Example parse_examples :
  WHATWG.parse (lit "https://example.com")
    = WHATWG.Parsed (mkURL (lit "https://example.com/") (lit "example.com")) /\
  WHATWG.parse (lit "http://Example.COM:8080/a/b?x=1#top")
    = WHATWG.Parsed (mkURL (lit "http://example.com:8080/a/b?x=1#top")
                       (lit "example.com")) /\
  WHATWG.parse (lit "https://example.com:443")
    = WHATWG.Parsed (mkURL (lit "https://example.com/") (lit "example.com")) /\
  WHATWG.parse (lit "https://not a url") = WHATWG.Failure /\
  WHATWG.parse (lit "https://") = WHATWG.Failure /\
  WHATWG.parse (lit "https://example.com:99999") = WHATWG.Failure /\
  WHATWG.parse (lit "https://192.168.0.1") = WHATWG.Unmodelled /\
  WHATWG.parse (lit "https://user@example.com") = WHATWG.Unmodelled.
Proof. vm_compute. repeat split. Qed.

Example checkSSL_examples :
  (exists r, A.checkSSL 0%float = Ok r /\ A.grade r = lit "A+"
             /\ A.ssl_status r = A.excellent) /\
  (exists r, A.checkSSL 0.4%float = Ok r /\ A.grade r = lit "A-"
             /\ A.ssl_status r = A.excellent) /\
  (exists r, A.checkSSL 0.5%float = Ok r /\ A.grade r = lit "B"
             /\ A.ssl_status r = A.good) /\
  (exists r, A.checkSSL 0.7%float = Ok r /\ A.grade r = lit "C"
             /\ A.ssl_status r = A.warning) /\
  (exists r, A.checkSSL (PrimFloat.next_down 1%float) = Ok r
             /\ A.grade r = lit "F" /\ A.ssl_status r = A.poor) /\
  A.checkSSL 1%float = Thrw (ErrorObj TypeErrorC A.undefined_message).
Proof. vm_compute. repeat split; eexists; repeat split. Qed.

Lemma has_http_scheme_of_prefix (s : jsstring) :
  startsWith s (lit "http://") = true \/ startsWith s (lit "https://") = true ->
  has_http_scheme s = true.
Proof.
  intros [H|H]; apply startsWith_split in H as [r ->]; reflexivity.
Qed.

Lemma with_scheme_absent (s : jsstring) :
  startsWith s (lit "http://") = false ->
  startsWith s (lit "https://") = false ->
  with_scheme s = lit "https://" ++ s.
Proof. intros H1 H2. unfold with_scheme. now rewrite H1, H2. Qed.

Lemma with_scheme_present (s : jsstring) :
  startsWith s (lit "http://") = true \/ startsWith s (lit "https://") = true ->
  with_scheme s = s.
Proof.
  intros H. unfold with_scheme.
  destruct H as [-> | ->]; [reflexivity|].
  now rewrite andb_false_r.
Qed.

Lemma replace_underscores_length (s : jsstring) :
  List.length (replace_underscores s) = List.length s.
Proof. apply length_map. Qed.

Lemma replace_underscores_nth (s : jsstring) (i : nat) (c : N) :
  nth_error s i = Some c ->
  nth_error (replace_underscores s) i = Some (if N.eqb c 95 then 32%N else c).
Proof. intros H. unfold replace_underscores. now rewrite nth_error_map, H. Qed.

Lemma replace_underscores_none_left (s : jsstring) :
  ~ In 95%N (replace_underscores s).
Proof.
  unfold replace_underscores. rewrite in_map_iff. intros [c [H _]].
  destruct (N.eqb_spec c 95); [discriminate|congruence].
Qed.

(** ** URL normalization *)

Lemma A_validateUrl_eq (URL_new : URLConstructor) (s : jsstring) :
  A.validateUrl URL_new s = parsed_as hostname (URL_new (with_scheme s)).
Proof. reflexivity. Qed.

Lemma B_validateUrl_eq (URL_new : URLConstructor) (s : jsstring) :
  B.validateUrl URL_new s = parsed_as href (URL_new (with_scheme s)).
Proof. reflexivity. Qed.

Lemma strict_agrees : WHATWG.agrees WHATWG.strict.
Proof.
  intros s. unfold WHATWG.strict. now destruct (WHATWG.parse s).
Qed.

(** C2: an input without an http/https scheme is parsed with [https://]
    in front of it, in both components; an input that starts with
    [http://] or [https://] is parsed as it is.  The first half is stated
    for the test of the code (neither prefix) and for the wider reading of
    a scheme in any letter case. *)
Theorem validateUrl_prepends_https :
  forall (URL_new : URLConstructor) (inputUrl : jsstring),
    (startsWith inputUrl (lit "http://") = false ->
     startsWith inputUrl (lit "https://") = false ->
     A.validateUrl URL_new inputUrl
       = parsed_as hostname (URL_new (lit "https://" ++ inputUrl)) /\
     B.validateUrl URL_new inputUrl
       = parsed_as href (URL_new (lit "https://" ++ inputUrl)))
    /\
    (has_http_scheme inputUrl = false ->
     A.validateUrl URL_new inputUrl
       = parsed_as hostname (URL_new (lit "https://" ++ inputUrl)) /\
     B.validateUrl URL_new inputUrl
       = parsed_as href (URL_new (lit "https://" ++ inputUrl)))
    /\
    (startsWith inputUrl (lit "http://") = true \/
     startsWith inputUrl (lit "https://") = true ->
     A.validateUrl URL_new inputUrl = parsed_as hostname (URL_new inputUrl) /\
     B.validateUrl URL_new inputUrl = parsed_as href (URL_new inputUrl)).
Proof.
  intros URL_new s.
  assert (Habs : startsWith s (lit "http://") = false ->
                 startsWith s (lit "https://") = false ->
                 A.validateUrl URL_new s
                   = parsed_as hostname (URL_new (lit "https://" ++ s)) /\
                 B.validateUrl URL_new s
                   = parsed_as href (URL_new (lit "https://" ++ s))).
  { intros H1 H2.
    now rewrite A_validateUrl_eq, B_validateUrl_eq, (with_scheme_absent _ H1 H2). }
  split; [exact Habs|split].
  - intros Hs.
    destruct (startsWith s (lit "http://")) eqn:H1.
    { rewrite has_http_scheme_of_prefix in Hs; [discriminate|now left]. }
    destruct (startsWith s (lit "https://")) eqn:H2.
    { rewrite has_http_scheme_of_prefix in Hs; [discriminate|now right]. }
    now apply Habs.
  - intros H.
    now rewrite A_validateUrl_eq, B_validateUrl_eq, (with_scheme_present _ H).
Qed.

Lemma validateUrl_prepends_https_witness :
  (A.validateUrl WHATWG.strict (lit "example.com")
     = parsed_as hostname (WHATWG.strict (lit "https://example.com")) /\
   B.validateUrl WHATWG.strict (lit "example.com")
     = parsed_as href (WHATWG.strict (lit "https://example.com")))
  /\
  (A.validateUrl WHATWG.strict (lit "http://example.com/a")
     = parsed_as hostname (WHATWG.strict (lit "http://example.com/a")) /\
   B.validateUrl WHATWG.strict (lit "http://example.com/a")
     = parsed_as href (WHATWG.strict (lit "http://example.com/a"))).
Proof.
  split.
  - destruct (validateUrl_prepends_https WHATWG.strict (lit "example.com"))
      as [H [H' _]].
    pose proof (H' eq_refl) as _.
    apply H; reflexivity.
  - destruct (validateUrl_prepends_https WHATWG.strict (lit "http://example.com/a"))
      as [_ [_ H]].
    apply H. left. reflexivity.
Defined.

(** C3: [validateUrl] throws exactly when the string it hands to the URL
    constructor does not parse, what it throws is an [Error] with the
    message "Please enter a valid URL", and "not a url" is such an input. *)
Theorem validateUrl_fails_iff_unparseable :
  forall (URL_new : URLConstructor) (inputUrl : jsstring),
    ((exists e, A.validateUrl URL_new inputUrl = Thrw e)
       <-> URL_new (with_scheme inputUrl) = None) /\
    ((exists e, B.validateUrl URL_new inputUrl = Thrw e)
       <-> URL_new (with_scheme inputUrl) = None) /\
    (forall e, A.validateUrl URL_new inputUrl = Thrw e ->
               e = ErrorObj ErrorC (lit "Please enter a valid URL")) /\
    (forall e, B.validateUrl URL_new inputUrl = Thrw e ->
               e = ErrorObj ErrorC (lit "Please enter a valid URL")) /\
    (WHATWG.agrees URL_new ->
     A.validateUrl URL_new (lit "not a url")
       = Thrw (ErrorObj ErrorC (lit "Please enter a valid URL")) /\
     B.validateUrl URL_new (lit "not a url")
       = Thrw (ErrorObj ErrorC (lit "Please enter a valid URL"))).
Proof.
  intros URL_new s.
  rewrite A_validateUrl_eq, B_validateUrl_eq.
  repeat split.
  - intros [e H]. destruct (URL_new (with_scheme s)); [discriminate|reflexivity].
  - intros ->. eexists; reflexivity.
  - intros [e H]. destruct (URL_new (with_scheme s)); [discriminate|reflexivity].
  - intros ->. eexists; reflexivity.
  - intros e H. destruct (URL_new (with_scheme s)); simpl in H; [discriminate|].
    injection H as <-. reflexivity.
  - intros e H. destruct (URL_new (with_scheme s)); simpl in H; [discriminate|].
    injection H as <-. reflexivity.
  - rewrite A_validateUrl_eq.
    pose proof (H (with_scheme (lit "not a url"))) as Hp.
    vm_compute in Hp. vm_compute with_scheme. now rewrite Hp.
  - rewrite B_validateUrl_eq.
    pose proof (H (with_scheme (lit "not a url"))) as Hp.
    vm_compute in Hp. vm_compute with_scheme. now rewrite Hp.
Qed.

Lemma validateUrl_fails_iff_unparseable_witness :
  A.validateUrl WHATWG.strict (lit "not a url")
    = Thrw (ErrorObj ErrorC (lit "Please enter a valid URL")) /\
  B.validateUrl WHATWG.strict (lit "not a url")
    = Thrw (ErrorObj ErrorC (lit "Please enter a valid URL")).
Proof.
  apply (validateUrl_fails_iff_unparseable WHATWG.strict []).
  exact strict_agrees.
Defined.

(** C5: on "example.com", Component A's [validateUrl] returns the hostname
    "example.com" and Component B's the href "https://example.com/", with
    any URL constructor that agrees with the URL Standard's parser. *)
Theorem validateUrl_example_com :
  forall URL_new : URLConstructor,
    WHATWG.agrees URL_new ->
    A.validateUrl URL_new (lit "example.com") = Ok (lit "example.com") /\
    B.validateUrl URL_new (lit "example.com") = Ok (lit "https://example.com/").
Proof.
  intros URL_new H.
  rewrite A_validateUrl_eq, B_validateUrl_eq.
  pose proof (H (with_scheme (lit "example.com"))) as Hp.
  vm_compute in Hp. vm_compute with_scheme. rewrite Hp. split; reflexivity.
Qed.

Lemma validateUrl_example_com_witness :
  A.validateUrl WHATWG.strict (lit "example.com") = Ok (lit "example.com") /\
  B.validateUrl WHATWG.strict (lit "example.com") = Ok (lit "https://example.com/").
Proof.
  apply (validateUrl_example_com WHATWG.strict). exact strict_agrees.
Defined.

(** ** The mock Safe Browsing check *)

(** C6: [checkSafeBrowsing] answers 'safe' or 'unsafe', never 'unknown';
    'safe' exactly when the domain contains one of the three listed names
    or the draw exceeds 0.3; and the details follow the status. *)
Theorem checkSafeBrowsing_classification :
  forall (domain : jsstring) (draw : float),
    let r := A.checkSafeBrowsing domain draw in
    (A.status r = A.safe \/ A.status r = A.unsafe) /\
    A.status r <> A.unknown /\
    (A.status r = A.safe <->
       includes domain (lit "google.com") = true \/
       includes domain (lit "github.com") = true \/
       includes domain (lit "stackoverflow.com") = true \/
       PrimFloat.ltb 0.3%float draw = true) /\
    (A.status r = A.safe -> A.details r = lit "No threats detected") /\
    (A.status r = A.unsafe -> A.details r = lit "Potential security threats found").
Proof.
  intros domain draw. unfold A.checkSafeBrowsing, A.mockSafeResults.
  cbn [existsb A.status A.details].
  destruct (includes domain (lit "google.com")),
           (includes domain (lit "github.com")),
           (includes domain (lit "stackoverflow.com")),
           (PrimFloat.ltb 0.3%float draw); cbn [orb];
    (repeat split; try tauto; try discriminate; try reflexivity; auto;
     intros H; decompose [or] H; discriminate).
Qed.

Lemma checkSafeBrowsing_classification_witness :
  A.details (A.checkSafeBrowsing (lit "docs.github.com") 0.1%float)
    = lit "No threats detected" /\
  A.details (A.checkSafeBrowsing (lit "example.com") 0.5%float)
    = lit "No threats detected" /\
  A.details (A.checkSafeBrowsing (lit "example.com") 0.3%float)
    = lit "Potential security threats found".
Proof.
  split; [|split].
  - apply (checkSafeBrowsing_classification (lit "docs.github.com") 0.1%float).
    reflexivity.
  - apply (checkSafeBrowsing_classification (lit "example.com") 0.5%float).
    reflexivity.
  - apply (checkSafeBrowsing_classification (lit "example.com") 0.3%float).
    reflexivity.
Defined.

(** ** Component B: the paths of [checkSafety] *)

Section CheckSafetyPaths.

Variable URL_new : URLConstructor.
Variable network : jsstring -> B.FetchOutcome.
Variable s : B.State.

Let toast_of (t d : string) (v : ToastVariant) : B.Event :=
  B.EToast (mkToast (lit t) (lit d) v).

Lemma checkSafety_empty :
  is_empty (trim (B.url s)) = true ->
  B.checkSafety URL_new network s
    = (Ok tt, s,
       [toast_of "URL Required" "Please enter a website URL to check" destructive]).
Proof.
  intros He. unfold B.checkSafety. js_unfold. now rewrite He.
Qed.

Variable validatedUrl : jsstring.
Hypothesis url_given : is_empty (trim (B.url s)) = false.
Hypothesis url_valid :
  B.validateUrl URL_new (trim (B.url s)) = Ok validatedUrl.

Lemma checkSafety_api_error (response : B.Response) :
  network validatedUrl = B.FetchResolves response ->
  B.ok response = false ->
  let error :=
    ErrorObj ErrorC (lit "API Error: " ++ number_to_string (B.status response)) in
  B.checkSafety_try URL_new network (B.url s) s
    = (Thrw error, B.mkState (B.url s) true None,
       [B.ESetIsChecking true; B.ESetResult None;
        B.EFetch validatedUrl]) /\
  B.checkSafety URL_new network s
    = (Ok tt, B.mkState (B.url s) false None,
       [B.ESetIsChecking true; B.ESetResult None;
        B.EFetch validatedUrl;
        B.EConsoleError error;
        B.EToast (mkToast (lit "Check Failed")
                    (lit "API Error: " ++ number_to_string (B.status response))
                    destructive);
        B.ESetIsChecking false]).
Proof.
  intros Hn Hok. unfold B.checkSafety, B.checkSafety_try. js_unfold.
  rewrite url_given, url_valid. js_simpl.
  unfold B.fetch. js_unfold. rewrite Hn, Hok. js_simpl.
  split; reflexivity.
Qed.

Variable response : B.Response.
Variable data : B.SafeBrowsingResponse.
Hypothesis fetched : network validatedUrl = B.FetchResolves response.
Hypothesis status_ok : B.ok response = true.
Hypothesis body : B.json response = B.JsonResolves data.

Lemma checkSafety_no_matches :
  B.matches data = None \/ B.matches data = Some [] ->
  B.checkSafety URL_new network s
    = (Ok tt,
       B.mkState (B.url s) false (Some (B.mkCheckResult true None)),
       [B.ESetIsChecking true; B.ESetResult None;
        B.EFetch validatedUrl;
        B.ESetResult (Some (B.mkCheckResult true None));
        toast_of "Scan Complete" "Website is safe to visit" default_variant;
        B.ESetIsChecking false]).
Proof.
  intros Hm. unfold B.checkSafety, B.checkSafety_try. js_unfold.
  rewrite url_given, url_valid. js_simpl.
  unfold B.fetch. js_unfold. rewrite fetched, status_ok. js_simpl.
  unfold B.await_json. rewrite body. js_unfold.
  destruct Hm as [-> | ->]; reflexivity.
Qed.

Lemma checkSafety_matches (m : B.ThreatMatch) (ms : list B.ThreatMatch) :
  B.matches data = Some (m :: ms) ->
  let threats := List.map B.threatType (m :: ms) in
  B.checkSafety URL_new network s
    = (Ok tt,
       B.mkState (B.url s) false (Some (B.mkCheckResult false (Some threats))),
       [B.ESetIsChecking true; B.ESetResult None;
        B.EFetch validatedUrl;
        B.ESetResult (Some (B.mkCheckResult false (Some threats)));
        toast_of "Security Warning" "Potential threats detected" destructive;
        B.ESetIsChecking false]).
Proof.
  intros Hm. unfold B.checkSafety, B.checkSafety_try. js_unfold.
  rewrite url_given, url_valid. js_simpl.
  unfold B.fetch. js_unfold. rewrite fetched, status_ok. js_simpl.
  unfold B.await_json. rewrite body. js_unfold.
  rewrite Hm. reflexivity.
Qed.

End CheckSafetyPaths.

Lemma checkSafety_catch_eq (error : Thrown) (s : B.State) :
  B.checkSafety_catch error s
    = (Ok tt, s, [B.EConsoleError error; B.EToast (B.failure_toast error)]).
Proof.
  unfold B.checkSafety_catch, B.failure_toast, B.toast. js_unfold.
  now destruct (instanceof_TypeError error && includes (message_of error) (lit "fetch")).
Qed.

(** ** Component B: verdicts *)

Lemma replace_underscores_each (ty : jsstring) :
  List.length (replace_underscores ty) = List.length ty /\
  forall i c,
    nth_error ty i = Some c ->
    (c = 95%N -> nth_error (replace_underscores ty) i = Some 32%N) /\
    (c <> 95%N -> nth_error (replace_underscores ty) i = Some c).
Proof.
  split; [apply replace_underscores_length|].
  intros i c H. rewrite (replace_underscores_nth ty i c H).
  destruct (N.eqb_spec c 95); split; intros Hc; congruence.
Qed.

Lemma replace_underscores_all (tys : list jsstring) :
  Forall2
    (fun ty tag =>
       List.length tag = List.length ty /\
       forall i c,
         nth_error ty i = Some c ->
         (c = 95%N -> nth_error tag i = Some 32%N) /\
         (c <> 95%N -> nth_error tag i = Some c))
    tys (List.map replace_underscores tys).
Proof.
  induction tys as [|ty tys IH]; cbn [List.map]; constructor;
    [apply replace_underscores_each|exact IH].
Qed.

(** C1: when the response is read, the stored verdict is unsafe exactly
    when [matches] is a non-empty list.  Without matches the result is
    [{safe: true}] and the card shows no threat tag; with matches it is
    [{safe: false, threats}], the threats being the [threatType] of each
    match in order, and the card shows one tag for each of them, in the
    same order: a string of the same length, with a space (code unit 32)
    wherever the threat type has an underscore (code unit 95) and the same
    code unit everywhere else. *)
Theorem verdict_unsafe_iff_matches :
  forall (URL_new : URLConstructor) (network : jsstring -> B.FetchOutcome)
         (s : B.State) (validatedUrl : jsstring)
         (response : B.Response) (data : B.SafeBrowsingResponse),
    is_empty (trim (B.url s)) = false ->
    B.validateUrl URL_new (trim (B.url s)) = Ok validatedUrl ->
    network validatedUrl = B.FetchResolves response ->
    B.ok response = true ->
    B.json response = B.JsonResolves data ->
    exists s' l,
      B.checkSafety URL_new network s = (Ok tt, s', l) /\
      match B.matches data with
      | None | Some [] =>
          B.result s' = Some (B.mkCheckResult true None) /\
          B.resultCard (B.render s') = Some B.SafeCard
      | Some ms =>
          B.result s'
            = Some (B.mkCheckResult false (Some (List.map B.threatType ms))) /\
          exists tags,
            B.resultCard (B.render s') = Some (B.UnsafeCard tags) /\
            Forall2
              (fun ty tag =>
                 List.length tag = List.length ty /\
                 forall i c,
                   nth_error ty i = Some c ->
                   (c = 95%N -> nth_error tag i = Some 32%N) /\
                   (c <> 95%N -> nth_error tag i = Some c))
              (List.map B.threatType ms) tags
      end /\
      (forall r, B.result s' = Some r ->
         (B.safe r = false <-> exists m ms, B.matches data = Some (m :: ms))).
Proof.
  intros URL_new network s v response data He Hv Hn Hok Hj.
  destruct (B.matches data) as [[|m ms]|] eqn:Hm.
  - eexists _, _. split; [|split].
    + eapply checkSafety_no_matches; eauto.
    + split; reflexivity.
    + intros r [= <-]. split; [discriminate|]. intros (m & ms & H). discriminate.
  - eexists _, _. split; [|split].
    + eapply checkSafety_matches; eauto.
    + split; [reflexivity|].
      exists (List.map replace_underscores (List.map B.threatType (m :: ms))).
      split; [reflexivity|apply replace_underscores_all].
    + intros r [= <-]. split; [|reflexivity]. intros _. now exists m, ms.
  - eexists _, _. split; [|split].
    + eapply checkSafety_no_matches; eauto.
    + split; reflexivity.
    + intros r [= <-]. split; [discriminate|]. intros (m & ms & H). discriminate.
Qed.

Lemma verdict_unsafe_iff_matches_witness :
  exists s' l tags,
    B.checkSafety WHATWG.strict
      (fun _ => B.FetchResolves
                  (B.mkResponse 200
                     (B.JsonResolves
                        (B.mkResponseBody
                           (Some [B.mkThreatMatch (lit "SOCIAL_ENGINEERING")
                                    (lit "ANY_PLATFORM") (lit "URL")
                                    (lit "https://example.com/")])))))
      (B.mkState (lit " example.com") false None)
      = (Ok tt, s', l) /\
    B.resultCard (B.render s') = Some (B.UnsafeCard tags) /\
    Forall2
      (fun ty tag =>
         List.length tag = List.length ty /\
         forall i c,
           nth_error ty i = Some c ->
           (c = 95%N -> nth_error tag i = Some 32%N) /\
           (c <> 95%N -> nth_error tag i = Some c))
      [lit "SOCIAL_ENGINEERING"] tags /\
    B.resultCard (B.render s') = Some (B.UnsafeCard [lit "SOCIAL ENGINEERING"]).
Proof.
  destruct (verdict_unsafe_iff_matches WHATWG.strict
              (fun _ => B.FetchResolves
                          (B.mkResponse 200
                             (B.JsonResolves
                                (B.mkResponseBody
                                   (Some [B.mkThreatMatch (lit "SOCIAL_ENGINEERING")
                                            (lit "ANY_PLATFORM") (lit "URL")
                                            (lit "https://example.com/")])))))
              (B.mkState (lit " example.com") false None)
              (lit "https://example.com/") _ _
              eq_refl eq_refl eq_refl eq_refl eq_refl)
    as (s' & l & Hrun & Hres & _).
  cbn [B.matches] in Hres. destruct Hres as (_ & tags & Hcard & Htags).
  exists s', l, tags. split; [exact Hrun|]. split; [exact Hcard|].
  split; [exact Htags|].
  vm_compute in Hrun. injection Hrun as <- _. reflexivity.
Defined.

(** *** The decimal numeral of a status *)

Lemma lit_uint_value (d d' : Decimal.uint) :
  DecimalPos.Unsigned.of_lu (Decimal.revapp d d')
    = fold_left (fun acc c => (10 * acc + (c - 48))%N)
        (lit (NilEmpty.string_of_uint d)) (DecimalPos.Unsigned.of_lu d').
Proof.
  revert d'. induction d; intros d'; cbn [Decimal.revapp]; [reflexivity|..];
    rewrite IHd; cbn [DecimalPos.Unsigned.of_lu];
    unfold lit;
    cbn [NilEmpty.string_of_uint list_ascii_of_string List.map fold_left];
    f_equal; cbn [N_of_ascii N_of_digits]; lia.
Qed.

Lemma number_to_string_value (n : N) :
  fold_left (fun acc c => (10 * acc + (c - 48))%N) (number_to_string n) 0%N = n.
Proof.
  unfold number_to_string.
  rewrite <- (DecimalN.Unsigned.of_to n) at 2.
  unfold N.of_uint. rewrite DecimalPos.Unsigned.of_uint_alt.
  unfold Decimal.rev. now rewrite lit_uint_value.
Qed.

Lemma number_to_string_digits (n : N) :
  Forall (fun c => (48 <= c <= 57)%N) (number_to_string n).
Proof.
  unfold number_to_string.
  induction (N.to_uint n); unfold lit in *;
    cbn [NilEmpty.string_of_uint list_ascii_of_string List.map];
    constructor; try assumption; cbn; lia.
Qed.

Lemma nzhead_not_zero (d d' : Decimal.uint) : Decimal.nzhead d <> Decimal.D0 d'.
Proof. induction d; cbn [Decimal.nzhead]; try discriminate. exact IHd. Qed.

Lemma number_to_string_canonical (n : N) :
  number_to_string n <> [] /\
  (hd 0%N (number_to_string n) = 48%N -> number_to_string n = [48%N]).
Proof.
  unfold number_to_string.
  assert (Hn : Decimal.unorm (N.to_uint n) = N.to_uint n).
  { rewrite <- (DecimalN.Unsigned.to_of (N.to_uint n)).
    now rewrite DecimalN.Unsigned.of_to. }
  destruct (N.to_uint n) as [|d|d|d|d|d|d|d|d|d|d].
  - discriminate Hn.
  - split; [discriminate|]. intros _.
    unfold Decimal.unorm in Hn. cbn [Decimal.nzhead] in Hn.
    destruct (Decimal.nzhead d) eqn:Hd;
      try (exfalso; exact (nzhead_not_zero d d (eq_trans Hd Hn))).
    injection Hn as <-. reflexivity.
  - split; [discriminate|intros H; discriminate H].
  - split; [discriminate|intros H; discriminate H].
  - split; [discriminate|intros H; discriminate H].
  - split; [discriminate|intros H; discriminate H].
  - split; [discriminate|intros H; discriminate H].
  - split; [discriminate|intros H; discriminate H].
  - split; [discriminate|intros H; discriminate H].
  - split; [discriminate|intros H; discriminate H].
  - split; [discriminate|intros H; discriminate H].
Qed.

(** C4: on a response whose status is outside 200-299 the [try] block
    throws an [Error] whose message is "API Error: " followed by the
    decimal numeral of the status: a non-empty string of the digits 0-9
    (code units 48-57), with no leading zero unless it is "0", whose value
    read in base ten is the status.  The toast shows that message, and
    [checkSafety] ends with [result] null: cleared at the start of the scan
    and not assigned again. *)
Theorem api_error_leaves_result_null :
  forall (URL_new : URLConstructor) (network : jsstring -> B.FetchOutcome)
         (s : B.State) (validatedUrl : jsstring) (response : B.Response),
    is_empty (trim (B.url s)) = false ->
    B.validateUrl URL_new (trim (B.url s)) = Ok validatedUrl ->
    network validatedUrl = B.FetchResolves response ->
    B.ok response = false ->
    exists digits : jsstring,
      digits <> [] /\
      Forall (fun c => (48 <= c <= 57)%N) digits /\
      (hd 0%N digits = 48%N -> digits = [48%N]) /\
      fold_left (fun acc c => (10 * acc + (c - 48))%N) digits 0%N
        = B.status response /\
      let message := lit "API Error: " ++ digits in
      (exists s1 l1,
         B.checkSafety_try URL_new network (B.url s) s
           = (Thrw (ErrorObj ErrorC message), s1, l1)) /\
      exists s',
        B.checkSafety URL_new network s
          = (Ok tt, s',
             [B.ESetIsChecking true; B.ESetResult None;
              B.EFetch validatedUrl;
              B.EConsoleError (ErrorObj ErrorC message);
              B.EToast (mkToast (lit "Check Failed") message destructive);
              B.ESetIsChecking false]) /\
        B.result s' = None /\
        B.isChecking s' = false.
Proof.
  intros URL_new network s v response He Hv Hn Hok.
  destruct (checkSafety_api_error URL_new network s v He Hv response Hn Hok)
    as [Htry Hrun].
  exists (number_to_string (B.status response)).
  destruct (number_to_string_canonical (B.status response)) as [Hne Hlead].
  split; [exact Hne|].
  split; [apply number_to_string_digits|].
  split; [exact Hlead|].
  split; [apply number_to_string_value|].
  split.
  - eexists _, _. exact Htry.
  - eexists. split; [exact Hrun|]. split; reflexivity.
Qed.

Lemma api_error_leaves_result_null_witness :
  exists s',
    B.checkSafety WHATWG.strict
      (fun _ => B.FetchResolves
                  (B.mkResponse 404 (B.JsonResolves (B.mkResponseBody None))))
      (B.mkState (lit "example.com") false
         (Some (B.mkCheckResult true None)))
      = (Ok tt, s',
         [B.ESetIsChecking true; B.ESetResult None;
          B.EFetch (lit "https://example.com/");
          B.EConsoleError (ErrorObj ErrorC (lit "API Error: 404"));
          B.EToast (mkToast (lit "Check Failed") (lit "API Error: 404") destructive);
          B.ESetIsChecking false]) /\
    B.result s' = None /\
    B.isChecking s' = false.
Proof.
  destruct (api_error_leaves_result_null WHATWG.strict
              (fun _ => B.FetchResolves
                          (B.mkResponse 404
                             (B.JsonResolves (B.mkResponseBody None))))
              (B.mkState (lit "example.com") false
                 (Some (B.mkCheckResult true None)))
              (lit "https://example.com/") _
              eq_refl eq_refl eq_refl eq_refl)
    as (digits & _ & _ & _ & _ & _ & s' & Hrun & Hres & Hflag).
  exists s'. split; [|split; [exact Hres|exact Hflag]].
  vm_compute in Hrun. injection Hrun as <- _.
  reflexivity.
Defined.

(** ** Blank input *)

Lemma dropWhile_nil_iff (A : Type) (p : A -> bool) (l : list A) :
  dropWhile p l = [] <-> forallb p l = true.
Proof.
  induction l as [|a l IH]; simpl; [tauto|].
  destruct (p a); simpl; [exact IH|].
  split; discriminate.
Qed.

Lemma dropWhile_all (A : Type) (p : A -> bool) (l : list A) :
  forallb p (dropWhile p l) = true -> dropWhile p l = [].
Proof.
  induction l as [|a l IH]; simpl; [reflexivity|].
  destruct (p a) eqn:Ha; [exact IH|].
  simpl. rewrite Ha. discriminate.
Qed.

Lemma forallb_rev_eq (A : Type) (p : A -> bool) (l : list A) :
  forallb p (rev l) = forallb p l.
Proof.
  induction l as [|a l IH]; simpl; [reflexivity|].
  rewrite forallb_app, IH. simpl. rewrite andb_true_r. apply andb_comm.
Qed.

(** [s.trim()] is empty exactly when [s] is made of whitespace only. *)
Lemma trim_blank (s : jsstring) :
  trim s = [] <-> forallb is_js_whitespace s = true.
Proof.
  unfold trim, trimEnd, trimStart. split.
  - intros H.
    apply (f_equal (@rev N)) in H. rewrite rev_involutive in H. simpl in H.
    apply dropWhile_nil_iff in H. rewrite forallb_rev_eq in H.
    now apply dropWhile_nil_iff, dropWhile_all.
  - intros H. apply dropWhile_nil_iff in H. now rewrite H.
Qed.

Lemma is_empty_true (s : jsstring) : is_empty s = true <-> s = [].
Proof. destruct s; simpl; split; congruence. Qed.

(** ** Component A: the paths of [handleScan] *)

Section HandleScanPaths.

Variable URL_new : URLConstructor.
Variable d : A.Draws.
Variable s : A.State.

Lemma handleScan_empty :
  is_empty (trim (A.url s)) = true ->
  A.handleScan URL_new d s
    = (Ok tt, s,
       [A.EToast (mkToast (lit "URL Required")
                    (lit "Please enter a website URL to scan") destructive)]).
Proof.
  intros He. unfold A.handleScan. js_unfold. now rewrite He.
Qed.

(** [handleScan] is its [try] block, then the [catch] block if that threw,
    then [setIsScanning(false)]. *)
Lemma handleScan_shape :
  is_empty (trim (A.url s)) = false ->
  A.handleScan URL_new d s
    = let '(r, s1, l1) := A.handleScan_try URL_new d (A.url s) s in
      (Ok tt,
       A.mkState (A.url s1) false (A.results s1),
       (l1 ++ match r with
              | Ok _ => []
              | Thrw e => [A.EToast (A.failure_toast e)]
              end) ++ [A.ESetIsScanning false]).
Proof.
  intros He. unfold A.handleScan. js_unfold. rewrite He.
  destruct (A.handleScan_try URL_new d (A.url s) s) as [[[[]|e] s1] l1];
    js_simpl; rewrite ?app_nil_r; reflexivity.
Qed.

Lemma handleScan_try_invalid (e : Thrown) :
  A.validateUrl URL_new (trim (A.url s)) = Thrw e ->
  A.handleScan_try URL_new d (A.url s) s = (Thrw e, s, []).
Proof.
  intros Hv. unfold A.handleScan_try, A.scan_begin. js_unfold. now rewrite Hv.
Qed.

Variable domain : jsstring.
Hypothesis url_valid : A.validateUrl URL_new (trim (A.url s)) = Ok domain.

(** The events from the start of a scan to its [await]. *)
Let started : list A.Event :=
  [A.ESetIsScanning true; A.ESetResults None;
   A.EConsoleLog (lit "Checking Safe Browsing for:") domain;
   A.ESetTimeout 1500;
   A.EConsoleLog (lit "Checking SSL for:") domain;
   A.ESetTimeout 2000].

Lemma handleScan_try_valid :
  A.handleScan_try URL_new d (A.url s) s
    = let sb := A.checkSafeBrowsing domain (A.sb_draw d) in
      match A.checkSSL (A.ssl_draw d) with
      | Ok ssl =>
          (Ok tt,
           A.mkState (A.url s) true (Some (A.mkSecurityResult sb ssl)),
           started ++
           [A.ESafeBrowsingReturned sb; A.ESslReturned ssl;
            A.ESetResults (Some (A.mkSecurityResult sb ssl));
            A.EToast (mkToast (lit "Scan Complete")
                        (lit "Security scan completed for " ++ domain)
                        default_variant)])
      | Thrw e =>
          (Thrw e, A.mkState (A.url s) true None,
           started ++ [A.ESafeBrowsingReturned sb; A.ESslThrew e])
      end.
Proof.
  unfold A.handleScan_try, A.scan_begin, A.await_checks. js_unfold.
  rewrite url_valid. js_simpl.
  destruct (A.checkSSL (A.ssl_draw d)); reflexivity.
Qed.

End HandleScanPaths.

Lemma handleScan_try_timers (URL_new : URLConstructor) (d : A.Draws)
    (u : jsstring) (s : A.State) :
  List.length (A.timers (snd (A.handleScan_try URL_new d u s))) <= 2.
Proof.
  unfold A.handleScan_try, A.scan_begin, A.await_checks. js_unfold.
  destruct (A.validateUrl URL_new (trim u)); js_simpl; [|lia].
  destruct (A.checkSSL (A.ssl_draw d)); js_simpl; lia.
Qed.

(** ** Component B: the shape of [checkSafety] *)

Lemma checkSafety_shape (URL_new : URLConstructor)
    (network : jsstring -> B.FetchOutcome) (s : B.State) :
  is_empty (trim (B.url s)) = false ->
  B.checkSafety URL_new network s
    = let '(r, s1, l1) := B.checkSafety_try URL_new network (B.url s) s in
      (Ok tt,
       B.mkState (B.url s1) false (B.result s1),
       (l1 ++ match r with
              | Ok _ => []
              | Thrw e => [B.EConsoleError e; B.EToast (B.failure_toast e)]
              end) ++ [B.ESetIsChecking false]).
Proof.
  intros He. unfold B.checkSafety. js_unfold. rewrite He.
  destruct (B.checkSafety_try URL_new network (B.url s) s) as [[[[]|e] s1] l1].
  - js_simpl. rewrite ?app_nil_r. reflexivity.
  - rewrite checkSafety_catch_eq. reflexivity.
Qed.

Lemma checkSafety_try_requests (URL_new : URLConstructor)
    (network : jsstring -> B.FetchOutcome) (u : jsstring) (s : B.State) :
  List.length (B.requests (snd (B.checkSafety_try URL_new network u s))) <= 1.
Proof.
  unfold B.checkSafety_try, B.fetch, B.await_json. js_unfold.
  destruct (B.validateUrl URL_new (trim u)) as [v|e]; js_simpl; [|lia].
  destruct (network v) as [response|e]; js_simpl; [|lia].
  destruct (B.ok response); js_simpl; [|lia].
  destruct (B.json response) as [data|e]; js_simpl; [|lia].
  destruct (B.matches data) as [[|m ms]|]; js_simpl; lia.
Qed.

(** ** Both components: blank input, termination, replacement *)

(** C10: when the entered URL is empty or all whitespace, so that its trim
    is empty, the scan function of either component returns at once: the
    state is the one it started from (flag and stored result untouched)
    and the only event is the "URL Required" toast (no setter, no timer,
    no request). *)
Theorem blank_url_returns_early :
  forall (URL_new : URLConstructor) (network : jsstring -> B.FetchOutcome)
         (d : A.Draws) (sa : A.State) (sb : B.State),
    (trim (A.url sa) = [] \/ forallb is_js_whitespace (A.url sa) = true ->
     A.handleScan URL_new d sa
       = (Ok tt, sa,
          [A.EToast (mkToast (lit "URL Required")
                       (lit "Please enter a website URL to scan") destructive)]))
    /\
    (trim (B.url sb) = [] \/ forallb is_js_whitespace (B.url sb) = true ->
     B.checkSafety URL_new network sb
       = (Ok tt, sb,
          [B.EToast (mkToast (lit "URL Required")
                       (lit "Please enter a website URL to check") destructive)])).
Proof.
  intros URL_new network d sa sb. split; intros H.
  - apply handleScan_empty, is_empty_true.
    destruct H as [H|H]; [exact H|now apply trim_blank].
  - apply checkSafety_empty, is_empty_true.
    destruct H as [H|H]; [exact H|now apply trim_blank].
Qed.

Lemma blank_url_returns_early_witness :
  A.handleScan WHATWG.strict (A.mkDraws 0.5%float 0.5%float)
    (A.mkState (lit "  ") false None)
    = (Ok tt, A.mkState (lit "  ") false None,
       [A.EToast (mkToast (lit "URL Required")
                    (lit "Please enter a website URL to scan") destructive)])
  /\
  B.checkSafety WHATWG.strict (fun _ => B.FetchRejects NonError)
    (B.mkState [] false (Some (B.mkCheckResult true None)))
    = (Ok tt, B.mkState [] false (Some (B.mkCheckResult true None)),
       [B.EToast (mkToast (lit "URL Required")
                    (lit "Please enter a website URL to check") destructive)]).
Proof.
  destruct (blank_url_returns_early WHATWG.strict
              (fun _ => B.FetchRejects NonError)
              (A.mkDraws 0.5%float 0.5%float)
              (A.mkState (lit "  ") false None)
              (B.mkState [] false (Some (B.mkCheckResult true None))))
    as [Ha Hb].
  split.
  - apply Ha. right. reflexivity.
  - apply Hb. left. reflexivity.
Defined.

(** C9: a scan of either component, whatever happens in it, ends normally
    with the scanning flag false, so with the button enabled and no loading
    card; if its [try] block threw, the error was caught and the last thing
    before the flag's reset is the failure toast carrying it; and the
    checks are not started again: at most the two timers of Component A,
    at most one request of Component B.  A call on a blank URL, which the
    button and the Enter key only make while the flag is false, ends
    normally with the flag false as well. *)
Theorem scan_ends_idle :
  forall (URL_new : URLConstructor) (network : jsstring -> B.FetchOutcome)
         (d : A.Draws) (sa : A.State) (sb : B.State),
    (is_empty (trim (A.url sa)) = false ->
     exists s' l,
       A.handleScan URL_new d sa = (Ok tt, s', l ++ [A.ESetIsScanning false]) /\
       A.isScanning s' = false /\
       A.buttonDisabled (A.render s') = false /\
       A.loadingCard (A.render s') = false /\
       (forall e s1 l1,
          A.handleScan_try URL_new d (A.url sa) sa = (Thrw e, s1, l1) ->
          l = l1 ++ [A.EToast (A.failure_toast e)]) /\
       List.length (A.timers l) <= 2)
    /\
    (A.isScanning sa = false ->
     exists s' l,
       A.handleScan URL_new d sa = (Ok tt, s', l) /\ A.isScanning s' = false)
    /\
    (B.isChecking sb = false ->
     exists s' l,
       B.checkSafety URL_new network sb = (Ok tt, s', l) /\ B.isChecking s' = false)
    /\
    (is_empty (trim (B.url sb)) = false ->
     exists s' l,
       B.checkSafety URL_new network sb = (Ok tt, s', l ++ [B.ESetIsChecking false]) /\
       B.isChecking s' = false /\
       B.buttonDisabled (B.render s') = false /\
       B.loadingCard (B.render s') = false /\
       (forall e s1 l1,
          B.checkSafety_try URL_new network (B.url sb) sb = (Thrw e, s1, l1) ->
          l = l1 ++ [B.EConsoleError e; B.EToast (B.failure_toast e)]) /\
       List.length (B.requests l) <= 1).
Proof.
  intros URL_new network d sa sb.
  split; [|split; [|split]]; intros He.
  - rewrite (handleScan_shape URL_new d sa He).
    pose proof (handleScan_try_timers URL_new d (A.url sa) sa) as Ht.
    destruct (A.handleScan_try URL_new d (A.url sa) sa) as [[r s1] l1].
    eexists _, _. split; [reflexivity|].
    repeat split.
    + intros e s2 l2 [= -> _ ->]. reflexivity.
    + simpl in Ht. unfold A.timers in *. rewrite filter_app, length_app.
      destruct r; simpl; lia.
  - destruct (is_empty (trim (A.url sa))) eqn:Hb.
    + rewrite (handleScan_empty URL_new d sa Hb).
      eexists _, _. split; [reflexivity|exact He].
    + rewrite (handleScan_shape URL_new d sa Hb).
      destruct (A.handleScan_try URL_new d (A.url sa) sa) as [[r s1] l1].
      eexists _, _. split; reflexivity.
  - destruct (is_empty (trim (B.url sb))) eqn:Hb.
    + rewrite (checkSafety_empty URL_new network sb Hb).
      eexists _, _. split; [reflexivity|exact He].
    + rewrite (checkSafety_shape URL_new network sb Hb).
      destruct (B.checkSafety_try URL_new network (B.url sb) sb) as [[r s1] l1].
      eexists _, _. split; reflexivity.
  - rewrite (checkSafety_shape URL_new network sb He).
    pose proof (checkSafety_try_requests URL_new network (B.url sb) sb) as Ht.
    destruct (B.checkSafety_try URL_new network (B.url sb) sb) as [[r s1] l1].
    eexists _, _. split; [reflexivity|].
    repeat split.
    + intros e s2 l2 [= -> _ ->]. reflexivity.
    + simpl in Ht. unfold B.requests in *. rewrite filter_app, length_app.
      destruct r; simpl; lia.
Qed.

Lemma scan_ends_idle_witness :
  (exists s' l,
     A.handleScan WHATWG.strict (A.mkDraws 0.5%float 1%float)
       (A.mkState (lit "example.com") false None)
       = (Ok tt, s', l ++ [A.ESetIsScanning false]) /\
     A.isScanning s' = false)
  /\
  (exists s' l,
     B.checkSafety WHATWG.strict
       (fun _ => B.FetchRejects (ErrorObj TypeErrorC (lit "Failed to fetch")))
       (B.mkState (lit "not a url") false None)
       = (Ok tt, s', l ++ [B.ESetIsChecking false]) /\
     B.isChecking s' = false).
Proof.
  destruct (scan_ends_idle WHATWG.strict
              (fun _ => B.FetchRejects (ErrorObj TypeErrorC (lit "Failed to fetch")))
              (A.mkDraws 0.5%float 1%float)
              (A.mkState (lit "example.com") false None)
              (B.mkState (lit "not a url") false None))
    as (Ha & Ha' & Hb' & Hb).
  pose proof (Ha' eq_refl) as _. pose proof (Hb' eq_refl) as _.
  split.
  - destruct (Ha eq_refl) as (s' & l & H1 & H2 & _).
    exists s', l. split; assumption.
  - destruct (Hb eq_refl) as (s' & l & H1 & H2 & _).
    exists s', l. split; assumption.
Defined.

(** C8, as stated for every scan, fails on a URL that does not validate:
    "not a url" is not blank, the URL Standard's parser rejects
    "https://not a url", [validateUrl] throws at line 94 before the setters
    of lines 95-96 run, and the scan ends with the prior result still
    stored and still shown, [results] never having been cleared. *)
Lemma prior_result_survives_invalid_url :
  is_empty (trim (lit "not a url")) = false /\
  WHATWG.parse (with_scheme (trim (lit "not a url"))) = WHATWG.Failure /\
  A.handleScan WHATWG.strict (A.mkDraws 0.5%float 0.5%float)
    (A.mkState (lit "not a url") false
       (Some (A.mkSecurityResult
                (A.mkSafeBrowsing A.safe (lit "No threats detected"))
                (A.mkSsl (lit "A+") A.excellent
                   (lit "SSL certificate grade: A+")))))
    = (Ok tt,
       A.mkState (lit "not a url") false
         (Some (A.mkSecurityResult
                  (A.mkSafeBrowsing A.safe (lit "No threats detected"))
                  (A.mkSsl (lit "A+") A.excellent
                     (lit "SSL certificate grade: A+")))),
       [A.EToast (mkToast (lit "Scan Failed")
                    (lit "Please enter a valid URL") destructive);
        A.ESetIsScanning false]) /\
  A.resultCards
    (A.render
       (snd (fst
          (A.handleScan WHATWG.strict (A.mkDraws 0.5%float 0.5%float)
             (A.mkState (lit "not a url") false
                (Some (A.mkSecurityResult
                         (A.mkSafeBrowsing A.safe (lit "No threats detected"))
                         (A.mkSsl (lit "A+") A.excellent
                            (lit "SSL certificate grade: A+")))))))))
    = Some (A.mkSafeBrowsing A.safe (lit "No threats detected"),
            A.mkSsl (lit "A+") A.excellent (lit "SSL certificate grade: A+")).
Proof. vm_compute. repeat split. Qed.

(** C8, amended: a scan of Component A whose URL passes validation clears
    [results] to null at its start and, when both checks have returned,
    sets it to the record made of their two outputs; the outcome is the
    same whatever result was stored before, so nothing of it survives. *)
Theorem new_scan_replaces_results :
  forall (URL_new : URLConstructor) (d : A.Draws) (s : A.State)
         (domain : jsstring),
    is_empty (trim (A.url s)) = false ->
    A.validateUrl URL_new (trim (A.url s)) = Ok domain ->
    exists s' l,
      A.handleScan URL_new d s
        = (Ok tt, s', [A.ESetIsScanning true; A.ESetResults None] ++ l) /\
      (forall ssl,
         A.checkSSL (A.ssl_draw d) = Ok ssl ->
         let fresh :=
           A.mkSecurityResult (A.checkSafeBrowsing domain (A.sb_draw d)) ssl in
         A.results s' = Some fresh /\
         In (A.ESetResults (Some fresh)) l /\
         A.resultCards (A.render s')
           = Some (A.checkSafeBrowsing domain (A.sb_draw d), ssl)) /\
      (forall prior : option A.SecurityResult,
         A.handleScan URL_new d (A.mkState (A.url s) (A.isScanning s) prior)
           = (Ok tt, s', [A.ESetIsScanning true; A.ESetResults None] ++ l)).
Proof.
  intros URL_new d s domain He Hv.
  assert (Hrun : forall prior,
             A.handleScan URL_new d (A.mkState (A.url s) (A.isScanning s) prior)
             = let '(r, s1, l1) := A.handleScan_try URL_new d (A.url s) s in
               (Ok tt,
                A.mkState (A.url s1) false (A.results s1),
                (l1 ++ match r with
                       | Ok _ => []
                       | Thrw e => [A.EToast (A.failure_toast e)]
                       end) ++ [A.ESetIsScanning false])).
  { intros prior.
    rewrite handleScan_shape by exact He.
    rewrite (handleScan_try_valid URL_new d (A.mkState (A.url s) (A.isScanning s) prior)
               domain Hv).
    rewrite (handleScan_try_valid URL_new d s domain Hv).
    reflexivity. }
  assert (Hs : A.handleScan URL_new d s
               = A.handleScan URL_new d
                   (A.mkState (A.url s) (A.isScanning s) (A.results s)))
    by now destruct s.
  rewrite Hs.
  rewrite (handleScan_try_valid URL_new d s domain Hv) in Hrun.
  destruct (A.checkSSL (A.ssl_draw d)) as [ssl|e] eqn:Hssl.
  - eexists _, _. split; [rewrite Hrun; reflexivity|]. split.
    + intros ssl' [= <-]. simpl. split; [reflexivity|]. split; [|reflexivity].
      do 6 right. left. reflexivity.
    + intros prior. rewrite Hrun. reflexivity.
  - eexists _, _. split; [rewrite Hrun; reflexivity|]. split.
    + intros ssl' [=].
    + intros prior. rewrite Hrun. reflexivity.
Qed.

Lemma new_scan_replaces_results_witness :
  exists s' l,
    A.handleScan WHATWG.strict (A.mkDraws 0.25%float 0.5%float)
      (A.mkState (lit "example.com") false
         (Some (A.mkSecurityResult
                  (A.mkSafeBrowsing A.safe (lit "No threats detected"))
                  (A.mkSsl (lit "A+") A.excellent
                     (lit "SSL certificate grade: A+")))))
      = (Ok tt, s', [A.ESetIsScanning true; A.ESetResults None] ++ l) /\
    A.results s'
      = Some (A.mkSecurityResult
                (A.mkSafeBrowsing A.unsafe (lit "Potential security threats found"))
                (A.mkSsl (lit "B") A.good (lit "SSL certificate grade: B"))).
Proof.
  destruct (new_scan_replaces_results WHATWG.strict
              (A.mkDraws 0.25%float 0.5%float)
              (A.mkState (lit "example.com") false
                 (Some (A.mkSecurityResult
                          (A.mkSafeBrowsing A.safe (lit "No threats detected"))
                          (A.mkSsl (lit "A+") A.excellent
                             (lit "SSL certificate grade: A+")))))
              (lit "example.com") eq_refl eq_refl)
    as (s' & l & Hrun & Hfresh & _).
  exists s', l. split; [exact Hrun|].
  exact (proj1 (Hfresh _ eq_refl)).
Defined.

(** ** Component A under the event loop *)

Section EventLoop.

Variable URL_new : URLConstructor.

Lemma to_await_empty (s : A.State) :
  is_empty (trim (A.url s)) = true ->
  A.handleScan_to_await URL_new s
    = (Ok None, s,
       [A.EToast (mkToast (lit "URL Required")
                    (lit "Please enter a website URL to scan") destructive)]).
Proof.
  intros He. unfold A.handleScan_to_await. js_unfold. now rewrite He.
Qed.

Lemma to_await_invalid (s : A.State) (e : Thrown) :
  is_empty (trim (A.url s)) = false ->
  A.validateUrl URL_new (trim (A.url s)) = Thrw e ->
  A.handleScan_to_await URL_new s
    = (Ok None, A.mkState (A.url s) false (A.results s),
       [A.EToast (A.failure_toast e); A.ESetIsScanning false]).
Proof.
  intros He Hv. unfold A.handleScan_to_await, A.scan_begin. js_unfold.
  now rewrite He, Hv.
Qed.

Lemma to_await_valid (s : A.State) (domain : jsstring) :
  is_empty (trim (A.url s)) = false ->
  A.validateUrl URL_new (trim (A.url s)) = Ok domain ->
  A.handleScan_to_await URL_new s
    = (Ok (Some domain), A.mkState (A.url s) true None,
       [A.ESetIsScanning true; A.ESetResults None;
        A.EConsoleLog (lit "Checking Safe Browsing for:") domain;
        A.ESetTimeout 1500;
        A.EConsoleLog (lit "Checking SSL for:") domain;
        A.ESetTimeout 2000]).
Proof.
  intros He Hv. unfold A.handleScan_to_await, A.scan_begin. js_unfold.
  now rewrite He, Hv.
Qed.

Lemma resume_joined (s : A.State) (domain : jsstring)
    (a : A.SafeBrowsingRecord) (b : A.SslRecord) :
  A.handleScan_resume domain (Ok (a, b)) s
    = (Ok tt, A.mkState (A.url s) false (Some (A.mkSecurityResult a b)),
       [A.ESetResults (Some (A.mkSecurityResult a b));
        A.EToast (mkToast (lit "Scan Complete")
                    (lit "Security scan completed for " ++ domain)
                    default_variant);
        A.ESetIsScanning false]).
Proof. reflexivity. Qed.

Lemma resume_rejected (s : A.State) (domain : jsstring) (e : Thrown) :
  A.handleScan_resume domain (Thrw e) s
    = (Ok tt, A.mkState (A.url s) false (A.results s),
       [A.EToast (A.failure_toast e); A.ESetIsScanning false]).
Proof. reflexivity. Qed.

End EventLoop.

(** ** Where an event sits in an extended log *)

Section Splits.

Variable E : Type.

Lemma split_within (l suffix pre post : list E) (e : E) :
  l ++ suffix = pre ++ e :: post ->
  ~ In e suffix ->
  exists post', l = pre ++ e :: post' /\ post = post' ++ suffix.
Proof.
  revert pre. induction l as [|a l IH]; intros pre H Hn.
  - simpl in H. subst suffix. exfalso. apply Hn, in_elt.
  - destruct pre as [|b pre]; simpl in H; injection H as -> H.
    + exists l. split; [reflexivity|now symmetry].
    + destruct (IH pre H Hn) as (post' & -> & ->).
      exists post'. split; reflexivity.
Qed.

Lemma split_at_new (m s2 pre post : list E) (e0 e : E) :
  m ++ e0 :: s2 = pre ++ e :: post ->
  ~ In e s2 ->
  (exists post', m = pre ++ e :: post') \/ (e = e0 /\ pre = m).
Proof.
  revert pre. induction m as [|a m IH]; intros pre H Hn.
  - destruct pre as [|b pre]; simpl in H; injection H as -> H.
    + right. split; reflexivity.
    + exfalso. apply Hn. rewrite H. apply in_elt.
  - destruct pre as [|b pre]; simpl in H; injection H as -> H.
    + left. exists m. reflexivity.
    + destruct (IH pre H Hn) as [(post' & ->) | (-> & ->)].
      * left. exists post'. reflexivity.
      * right. split; reflexivity.
Qed.

Lemma split_second (l tail : list E) (x e : E) :
  l ++ x :: e :: tail = (l ++ [x]) ++ e :: tail.
Proof. now rewrite <- app_assoc. Qed.

End Splits.

Section Invariant.

Variable URL_new : URLConstructor.

Let quiet (l : list A.Event) : Prop :=
  forall r, ~ In (A.ESetResults (Some r)) l.

(** Events that assign no record keep the first two parts of the invariant. *)
Lemma assigned_extend (l suffix : list A.Event) :
  (forall pre r post,
     l = pre ++ A.ESetResults (Some r) :: post -> A.joined_before pre r) ->
  quiet suffix ->
  forall pre r post,
    l ++ suffix = pre ++ A.ESetResults (Some r) :: post -> A.joined_before pre r.
Proof.
  intros IH Hq pre r post H.
  destruct (split_within _ _ _ _ _ _ H (Hq r)) as (post' & Hl & _).
  exact (IH _ _ _ Hl).
Qed.

Lemma stored_extend (l suffix : list A.Event) (stored : option A.SecurityResult) :
  (forall r, stored = Some r ->
     exists pre post, l = pre ++ A.ESetResults (Some r) :: post) ->
  forall r, stored = Some r ->
    exists pre post, l ++ suffix = pre ++ A.ESetResults (Some r) :: post.
Proof.
  intros IH r Hr. destruct (IH r Hr) as (pre & post & ->).
  exists pre, (post ++ suffix). now rewrite <- app_assoc.
Qed.

(** The assignment that follows the second return is a joined one. *)
Lemma assigned_join (before since tail : list A.Event) (x : A.Event)
    (a : A.SafeBrowsingRecord) (b : A.SslRecord) :
  (forall pre r post,
     before ++ A.ESetResults None :: since
       = pre ++ A.ESetResults (Some r) :: post -> A.joined_before pre r) ->
  forallb (fun e => negb (A.is_setResults e)) since = true ->
  A.is_setResults x = false ->
  quiet tail ->
  In (A.ESafeBrowsingReturned a) (since ++ [x]) ->
  In (A.ESslReturned b) (since ++ [x]) ->
  forall pre r post,
    (before ++ A.ESetResults None :: since)
      ++ x :: A.ESetResults (Some (A.mkSecurityResult a b)) :: tail
      = pre ++ A.ESetResults (Some r) :: post ->
    A.joined_before pre r.
Proof.
  intros IH Hq Hx Ht Ha Hb pre r post H.
  change (x :: A.ESetResults (Some (A.mkSecurityResult a b)) :: tail)
    with ([x] ++ A.ESetResults (Some (A.mkSecurityResult a b)) :: tail) in H.
  rewrite app_assoc in H.
  destruct (split_at_new _ _ _ _ _ _ _ H (Ht r)) as [(post' & Hl) | (He & ->)].
  - assert (Hnx : ~ In (A.ESetResults (Some r)) [x]).
    { intros [Hx'|[]]. subst x. discriminate. }
    destruct (split_within _ _ _ _ _ _ Hl Hnx) as (post'' & Hl' & _).
    exact (IH _ _ _ Hl').
  - assert (Hr : r = A.mkSecurityResult a b) by congruence. subst r.
    exists before, (since ++ [x]). repeat split.
    + now rewrite <- app_assoc.
    + rewrite forallb_app, Hq. simpl. now rewrite Hx.
    + exact Ha.
    + exact Hb.
Qed.

Lemma mounted_invariant : A.scan_invariant A.mounted.
Proof.
  repeat split.
  - intros pre r post H. destruct pre; discriminate.
  - intros r H. discriminate.
Qed.

Ltac quiet_tac :=
  intros ? Hin; simpl in Hin;
  repeat (destruct Hin as [Hin|Hin]; [discriminate|]); exact Hin.

Lemma step_invariant (c : A.Config) (i : A.Input) :
  A.scan_invariant c -> A.scan_invariant (A.step URL_new c i).
Proof.
  intros Hinv. pose proof Hinv as (Hassigned & Hstored & Hphase).
  destruct c as [s ph l]. simpl in Hassigned, Hstored, Hphase.
  destruct i as [u | | draw | draw]; simpl.
  - (* typing *)
    split; [assumption|]. split; [assumption|].
    destruct ph; assumption.
  - (* activation *)
    destruct (A.isScanning s) eqn:Hscan; [exact Hinv|].
    assert (Hidle : ph = A.Idle).
    { destruct ph; [reflexivity|]. destruct Hphase as [Ht _]. congruence. }
    subst ph.
    destruct (is_empty (trim (A.url s))) eqn:He.
    + rewrite (to_await_empty URL_new s He).
      split; [|split]; js_simpl.
      * apply assigned_extend; [assumption|quiet_tac].
      * apply stored_extend; assumption.
      * assumption.
    + destruct (A.validateUrl URL_new (trim (A.url s))) as [domain|e] eqn:Hv.
      * rewrite (to_await_valid URL_new s domain He Hv).
        split; [|split; [|split; [|split]]]; js_simpl.
        -- apply assigned_extend; [assumption|quiet_tac].
        -- intros r H. discriminate.
        -- reflexivity.
        -- reflexivity.
        -- exists (l ++ [A.ESetIsScanning true]),
             [A.EConsoleLog (lit "Checking Safe Browsing for:") domain;
              A.ESetTimeout 1500;
              A.EConsoleLog (lit "Checking SSL for:") domain;
              A.ESetTimeout 2000].
           rewrite <- app_assoc. repeat split; try reflexivity; intros ? [=].
      * rewrite (to_await_invalid URL_new s e He Hv).
        split; [|split]; js_simpl.
        -- apply assigned_extend; [assumption|quiet_tac].
        -- apply stored_extend; assumption.
        -- reflexivity.
  - (* the Safe Browsing timer *)
    destruct ph as [|domain [a|] ssl]; js_simpl; try exact Hinv.
    destruct Hphase as (Hscan & Hres & before & since & -> & Hq & _ & Hssl).
    destruct ssl as [b|].
    + unfold A.resume; rewrite ?resume_joined.
      split; [|split]; js_simpl.
      * apply assigned_join; try assumption; try reflexivity.
        -- quiet_tac.
        -- apply in_or_app. right. left. reflexivity.
        -- apply in_or_app. left. now apply Hssl.
      * intros r [= <-].
        eexists _, _. apply split_second.
      * reflexivity.
    + split; [|split; [|split; [|split]]]; js_simpl.
      * apply assigned_extend; [assumption|quiet_tac].
      * intros r H. congruence.
      * assumption.
      * assumption.
      * exists before, (since ++ [A.ESafeBrowsingReturned (A.checkSafeBrowsing domain draw)]).
        rewrite <- app_assoc. repeat split; try reflexivity.
        -- rewrite forallb_app, Hq. reflexivity.
        -- intros a [= <-]. apply in_or_app. right. left. reflexivity.
        -- intros b [=].
  - (* the SSL timer *)
    destruct ph as [|domain sb [b|]]; js_simpl; try exact Hinv.
    destruct Hphase as (Hscan & Hres & before & since & -> & Hq & Hsb & _).
    destruct (A.checkSSL draw) as [b|e].
    + destruct sb as [a|].
      * unfold A.resume; rewrite ?resume_joined.
        split; [|split]; js_simpl.
        -- apply assigned_join; try assumption; try reflexivity.
           ++ quiet_tac.
           ++ apply in_or_app. left. now apply Hsb.
           ++ apply in_or_app. right. left. reflexivity.
        -- intros r [= <-].
           eexists _, _. apply split_second.
        -- reflexivity.
      * split; [|split; [|split; [|split]]]; js_simpl.
        -- apply assigned_extend; [assumption|quiet_tac].
        -- intros r H. congruence.
        -- assumption.
        -- assumption.
        -- exists before, (since ++ [A.ESslReturned b]).
           rewrite <- app_assoc. repeat split; try reflexivity.
           ++ rewrite forallb_app, Hq. reflexivity.
           ++ intros a [=].
           ++ intros b' [= <-]. apply in_or_app. right. left. reflexivity.
    + unfold A.resume; rewrite ?resume_rejected.
      split; [|split]; js_simpl.
      * apply assigned_extend; [assumption|quiet_tac].
      * apply stored_extend; assumption.
      * reflexivity.
Qed.

Lemma run_invariant (inputs : list A.Input) (c : A.Config) :
  A.scan_invariant c -> A.scan_invariant (A.run URL_new c inputs).
Proof.
  revert c. induction inputs as [|i inputs IH]; intros c Hc; simpl.
  - exact Hc.
  - apply IH, step_invariant, Hc.
Qed.

End Invariant.

(** [handleScan] run to its end is the event loop's run in which the
    button is activated and the two timers fire, the shorter one first. *)
Lemma handleScan_as_run (URL_new : URLConstructor) (d : A.Draws)
    (s : A.State) (l0 : list A.Event) :
  A.isScanning s = false ->
  let c := A.run URL_new (A.mkConfig s A.Idle l0)
             [A.Activate; A.SafeBrowsingTimer (A.sb_draw d);
              A.SslTimer (A.ssl_draw d)] in
  exists l,
    A.handleScan URL_new d s = (Ok tt, A.st c, l) /\
    A.log c = l0 ++ l /\
    A.phase c = A.Idle.
Proof.
  intros Hscan. unfold A.run. cbn [fold_left A.step A.st A.phase A.log].
  rewrite Hscan.
  destruct (is_empty (trim (A.url s))) eqn:He.
  - rewrite (to_await_empty URL_new s He), (handleScan_empty URL_new d s He).
    js_simpl. eexists. repeat split.
  - rewrite (handleScan_shape URL_new d s He).
    destruct (A.validateUrl URL_new (trim (A.url s))) as [domain|e] eqn:Hv.
    + rewrite (to_await_valid URL_new s domain He Hv),
        (handleScan_try_valid URL_new d s domain Hv).
      js_simpl.
      destruct (A.checkSSL (A.ssl_draw d)) as [ssl|e]; js_simpl;
        eexists; (split; [reflexivity|]); rewrite <- ?app_assoc; repeat split.
    + rewrite (to_await_invalid URL_new s e He Hv),
        (handleScan_try_invalid URL_new d s e Hv).
      js_simpl. eexists. repeat split.
Qed.

(** One run of the event loop: the SSL timer fires first and leaves a
    partial collection, invisible to the view; the second return joins. *)
Example event_loop_partial_then_joined :
  let c1 := A.run WHATWG.strict A.mounted
              [A.TypeUrl (lit "example.com"); A.Activate; A.SslTimer 0.5%float] in
  let c2 := A.step WHATWG.strict c1 (A.SafeBrowsingTimer 0.5%float) in
  A.phase c1
    = A.Awaiting (lit "example.com") None
        (Some (A.mkSsl (lit "B") A.good (lit "SSL certificate grade: B"))) /\
  A.results (A.st c1) = None /\
  A.resultCards (A.render (A.st c1)) = None /\
  A.phase c2 = A.Idle /\
  A.results (A.st c2)
    = Some (A.mkSecurityResult
              (A.mkSafeBrowsing A.safe (lit "No threats detected"))
              (A.mkSsl (lit "B") A.good (lit "SSL certificate grade: B"))).
Proof. vm_compute. repeat split. Qed.

(** C7: in every configuration the event loop reaches from the mounted
    component, each assignment of a record to [results] follows the
    clearing at the scan's start and the return of both checks, whose
    records are its two fields; the record stored is such an assignment;
    while a check is pending [results] is null and no result card is
    shown; and the cards shown are the two records of one joined scan. *)
Theorem results_assigned_after_join :
  forall (URL_new : URLConstructor) (inputs : list A.Input),
    let c := A.run URL_new A.mounted inputs in
    (forall pre r post,
       A.log c = pre ++ A.ESetResults (Some r) :: post ->
       A.joined_before pre r) /\
    (forall r,
       A.results (A.st c) = Some r ->
       exists pre post,
         A.log c = pre ++ A.ESetResults (Some r) :: post /\
         A.joined_before pre r) /\
    (forall domain sb ssl,
       A.phase c = A.Awaiting domain sb ssl ->
       A.results (A.st c) = None /\
       A.resultCards (A.render (A.st c)) = None) /\
    (forall a b,
       A.resultCards (A.render (A.st c)) = Some (a, b) ->
       exists pre post,
         A.log c = pre ++ A.ESetResults (Some (A.mkSecurityResult a b)) :: post /\
         A.joined_before pre (A.mkSecurityResult a b)).
Proof.
  intros URL_new inputs c.
  destruct (run_invariant URL_new inputs A.mounted mounted_invariant)
    as (Hassigned & Hstored & Hphase).
  fold c in Hassigned, Hstored, Hphase.
  assert (Hjoined : forall r,
             A.results (A.st c) = Some r ->
             exists pre post,
               A.log c = pre ++ A.ESetResults (Some r) :: post /\
               A.joined_before pre r).
  { intros r Hr. destruct (Hstored r Hr) as (pre & post & Hl).
    exists pre, post. split; [exact Hl|]. exact (Hassigned _ _ _ Hl). }
  split; [exact Hassigned|]. split; [exact Hjoined|]. split.
  - intros domain sb ssl Hph. rewrite Hph in Hphase.
    destruct Hphase as (_ & Hres & _).
    split; [exact Hres|]. unfold A.render. cbn [A.resultCards].
    now rewrite Hres.
  - intros a b Hcards. unfold A.render in Hcards. cbn [A.resultCards] in Hcards.
    destruct (A.results (A.st c)) as [[a' b']|] eqn:Hres; [|discriminate].
    destruct (negb (A.isScanning (A.st c))); [|discriminate].
    injection Hcards as -> ->.
    exact (Hjoined _ eq_refl).
Qed.

Lemma results_assigned_after_join_witness :
  let c := A.run WHATWG.strict A.mounted
             [A.TypeUrl (lit "example.com"); A.Activate;
              A.SslTimer 0.5%float; A.SafeBrowsingTimer 0.5%float] in
  let r := A.mkSecurityResult
             (A.mkSafeBrowsing A.safe (lit "No threats detected"))
             (A.mkSsl (lit "B") A.good (lit "SSL certificate grade: B")) in
  exists pre post,
    A.log c = pre ++ A.ESetResults (Some r) :: post /\
    A.joined_before pre r.
Proof.
  intros c r.
  destruct (results_assigned_after_join WHATWG.strict
              [A.TypeUrl (lit "example.com"); A.Activate;
               A.SslTimer 0.5%float; A.SafeBrowsingTimer 0.5%float])
    as (_ & Hstored & _).
  apply Hstored. reflexivity.
Defined.

(** * Further properties of the components *)

(** ** The mock SSL check *)

Lemma jsstring_eqb_eq (s t : jsstring) : jsstring_eqb s t = true <-> s = t.
Proof.
  revert t. induction s as [|c s IH]; destruct t as [|d t]; simpl;
    try (split; [discriminate|congruence]); [tauto|].
  rewrite andb_true_iff, N.eqb_eq, IH. split.
  - intros [-> ->]. reflexivity.
  - intros [= -> ->]. split; reflexivity.
Qed.

Lemma index_floor_In (T : Type) (l : list T) (k x : float) (a : T) :
  A.index_floor l k x = Some a -> In a l.
Proof.
  revert k. induction l as [|b l IH]; intros k H; simpl in H; [discriminate|].
  destruct (PrimFloat.leb k x && PrimFloat.ltb x (PrimFloat.add k 1%float)).
  - injection H as ->. now left.
  - right. exact (IH _ H).
Qed.

Lemma checkSSL_record (draw : float) (r : A.SslRecord) :
  A.checkSSL draw = Ok r ->
  A.ssl_details r = lit "SSL certificate grade: " ++ A.grade r /\
  ((A.grade r = lit "A+" \/ A.grade r = lit "A" \/ A.grade r = lit "A-")
     /\ A.ssl_status r = A.excellent
   \/ A.grade r = lit "B" /\ A.ssl_status r = A.good
   \/ A.grade r = lit "C" /\ A.ssl_status r = A.warning
   \/ A.grade r = lit "F" /\ A.ssl_status r = A.poor).
Proof.
  intros H. unfold A.checkSSL in H.
  destruct (A.index_floor A.grades 0%float (PrimFloat.mul draw 6%float))
    as [g|] eqn:Hg; [|discriminate].
  apply index_floor_In in Hg. injection H as <-.
  cbn [A.ssl_details A.grade A.ssl_status]. split; [reflexivity|].
  unfold A.grades in Hg. simpl in Hg.
  destruct Hg as [<-|[<-|[<-|[<-|[<-|[<-|[]]]]]]]; vm_compute; tauto.
Qed.

(** X1: whatever the draw, a record [checkSSL] returns carries one of the
    six grades, the status that goes with it (excellent for the three A
    grades, good for B, warning for C, poor for F) and the details
    "SSL certificate grade: " followed by the grade. *)
Theorem checkSSL_grade_status :
  forall (draw : float) (r : A.SslRecord),
    A.checkSSL draw = Ok r ->
    A.ssl_details r = lit "SSL certificate grade: " ++ A.grade r /\
    ((A.grade r = lit "A+" \/ A.grade r = lit "A" \/ A.grade r = lit "A-")
       /\ A.ssl_status r = A.excellent
     \/ A.grade r = lit "B" /\ A.ssl_status r = A.good
     \/ A.grade r = lit "C" /\ A.ssl_status r = A.warning
     \/ A.grade r = lit "F" /\ A.ssl_status r = A.poor).
Proof.
  intros draw r H.
  destruct (checkSSL_record draw r H) as [Hd Hg].
  split; [exact Hd|exact Hg].
Qed.

Lemma checkSSL_grade_status_witness :
  A.ssl_details (A.mkSsl (lit "C") A.warning (lit "SSL certificate grade: C"))
    = lit "SSL certificate grade: " ++ lit "C".
Proof.
  exact (proj1 (checkSSL_grade_status 0.7%float
                  (A.mkSsl (lit "C") A.warning (lit "SSL certificate grade: C"))
                  eq_refl)).
Defined.

(** ** Icons, badges and cards *)

Lemma status_switch (status : jsstring) :
  (A.getStatusIcon status = A.CheckCircle_green
     /\ A.getStatusBadgeClass status = lit "status-badge-safe"
     /\ (status = lit "safe" \/ status = lit "excellent"))
  \/ (A.getStatusIcon status = A.AlertTriangle_yellow
        /\ A.getStatusBadgeClass status = lit "status-badge-warning"
        /\ (status = lit "good" \/ status = lit "warning"))
  \/ (A.getStatusIcon status = A.XCircle_red
        /\ A.getStatusBadgeClass status = lit "status-badge-danger"
        /\ status <> lit "safe" /\ status <> lit "excellent"
        /\ status <> lit "good" /\ status <> lit "warning").
Proof.
  unfold A.getStatusIcon, A.getStatusBadgeClass.
  destruct (jsstring_eqb status (lit "safe")) eqn:H1.
  { left. apply jsstring_eqb_eq in H1. auto. }
  destruct (jsstring_eqb status (lit "excellent")) eqn:H2.
  { left. apply jsstring_eqb_eq in H2. auto. }
  destruct (jsstring_eqb status (lit "good")) eqn:H3.
  { right. left. apply jsstring_eqb_eq in H3. auto. }
  destruct (jsstring_eqb status (lit "warning")) eqn:H4.
  { right. left. apply jsstring_eqb_eq in H4. auto. }
  right. right. cbn [orb]. repeat split; try reflexivity;
    intros E; apply jsstring_eqb_eq in E; congruence.
Qed.

(** X2: for every status string the icon and the badge class go
    together: the green check with [status-badge-safe] (exactly for "safe"
    and "excellent"), the yellow triangle with [status-badge-warning]
    (exactly for "good" and "warning"), and the red cross with
    [status-badge-danger] for every other string. *)
Theorem status_icon_matches_badge :
  forall status : jsstring,
    (A.getStatusIcon status = A.CheckCircle_green
       <-> A.getStatusBadgeClass status = lit "status-badge-safe") /\
    (A.getStatusIcon status = A.AlertTriangle_yellow
       <-> A.getStatusBadgeClass status = lit "status-badge-warning") /\
    (A.getStatusIcon status = A.XCircle_red
       <-> A.getStatusBadgeClass status = lit "status-badge-danger") /\
    (A.getStatusIcon status = A.CheckCircle_green
       <-> status = lit "safe" \/ status = lit "excellent") /\
    (A.getStatusIcon status = A.AlertTriangle_yellow
       <-> status = lit "good" \/ status = lit "warning").
Proof.
  intros status.
  destruct (status_switch status)
    as [(Hi & Hb & Hs) | [(Hi & Hb & Hs) | (Hi & Hb & N1 & N2 & N3 & N4)]];
    rewrite Hi, Hb; repeat split; intros H;
      try reflexivity; try discriminate H; try (vm_compute in H; discriminate H);
      try assumption; try (destruct H; congruence);
      try (destruct Hs; subst status; destruct H as [H|H]; vm_compute in H; discriminate H).
Qed.

(** X3: the Safe Browsing card of a check's outcome is one of two: the
    green check, "Safe", the safe badge and "No threats detected"; or the
    red cross, "Unsafe", the danger badge and "Potential security threats
    found".  It is the first exactly when the check answered safe, and it
    is never the yellow one. *)
Theorem safeBrowsingCard_of_check :
  forall (domain : jsstring) (draw : float),
    let r := A.checkSafeBrowsing domain draw in
    (A.status r = A.safe /\
     A.safeBrowsingCard r
       = A.mkCard A.CheckCircle_green (lit "Safe")
           (lit "border status-badge-safe") (lit "No threats detected"))
    \/
    (A.status r = A.unsafe /\
     A.safeBrowsingCard r
       = A.mkCard A.XCircle_red (lit "Unsafe")
           (lit "border status-badge-danger")
           (lit "Potential security threats found")).
Proof.
  intros domain draw. unfold A.checkSafeBrowsing.
  destruct (existsb (fun safe => includes domain safe) A.mockSafeResults
            || PrimFloat.ltb 0.3%float draw);
    [left|right]; split; reflexivity.
Qed.

(** X4: the SSL card of a record [checkSSL] returns shows "Grade " and the
    grade, and by grade: the green check, the safe badge and "Excellent"
    for A+, A and A-; the yellow triangle and the warning badge for B
    ("Good") and for C ("Warning"); the red cross, the danger badge and
    "Poor" for F. *)
Theorem sslCard_of_check :
  forall (draw : float) (r : A.SslRecord),
    A.checkSSL draw = Ok r ->
    A.label (A.sslCard r) = lit "Grade " ++ A.grade r /\
    ((A.grade r = lit "A+" \/ A.grade r = lit "A" \/ A.grade r = lit "A-") /\
     A.icon (A.sslCard r) = A.CheckCircle_green /\
     A.badgeClass (A.sslCard r) = lit "border status-badge-safe" /\
     A.badgeText (A.sslCard r) = lit "Excellent"
     \/
     A.grade r = lit "B" /\
     A.icon (A.sslCard r) = A.AlertTriangle_yellow /\
     A.badgeClass (A.sslCard r) = lit "border status-badge-warning" /\
     A.badgeText (A.sslCard r) = lit "Good"
     \/
     A.grade r = lit "C" /\
     A.icon (A.sslCard r) = A.AlertTriangle_yellow /\
     A.badgeClass (A.sslCard r) = lit "border status-badge-warning" /\
     A.badgeText (A.sslCard r) = lit "Warning"
     \/
     A.grade r = lit "F" /\
     A.icon (A.sslCard r) = A.XCircle_red /\
     A.badgeClass (A.sslCard r) = lit "border status-badge-danger" /\
     A.badgeText (A.sslCard r) = lit "Poor").
Proof.
  intros draw r H.
  destruct (checkSSL_record draw r H) as [_ Hg].
  split; [reflexivity|].
  unfold A.sslCard. cbn [A.icon A.badgeClass A.badgeText].
  destruct Hg as [[Hg ->] | [[Hg ->] | [[Hg ->] | [Hg ->]]]].
  - left. split; [exact Hg|]. repeat split.
  - right. left. split; [exact Hg|]. repeat split.
  - right. right. left. split; [exact Hg|]. repeat split.
  - right. right. right. split; [exact Hg|]. repeat split.
Qed.

Lemma sslCard_of_check_witness :
  A.label (A.sslCard (A.mkSsl (lit "B") A.good (lit "SSL certificate grade: B")))
    = lit "Grade " ++ lit "B".
Proof.
  exact (proj1 (sslCard_of_check 0.5%float
                  (A.mkSsl (lit "B") A.good (lit "SSL certificate grade: B"))
                  eq_refl)).
Defined.

(** ** URL normalization, again *)

Lemma with_scheme_has_prefix (s : jsstring) :
  startsWith (with_scheme s) (lit "http://") = true \/
  startsWith (with_scheme s) (lit "https://") = true.
Proof.
  unfold with_scheme.
  destruct (startsWith s (lit "http://")) eqn:H1; [now left|].
  destruct (startsWith s (lit "https://")) eqn:H2; [now right|].
  right. apply startsWith_prefix.
Qed.

(** X5: the string [validateUrl] hands to the URL constructor always
    starts with [http://] or [https://]; the prefix is never added twice,
    so validating the prefixed string gives what validating the input gave;
    and the two components accept the same inputs, returning the hostname
    and the href of one and the same URL object. *)
Theorem validateUrl_normal_form :
  forall (URL_new : URLConstructor) (inputUrl : jsstring),
    (startsWith (with_scheme inputUrl) (lit "http://") = true \/
     startsWith (with_scheme inputUrl) (lit "https://") = true) /\
    with_scheme (with_scheme inputUrl) = with_scheme inputUrl /\
    A.validateUrl URL_new (with_scheme inputUrl) = A.validateUrl URL_new inputUrl /\
    B.validateUrl URL_new (with_scheme inputUrl) = B.validateUrl URL_new inputUrl /\
    ((exists h, A.validateUrl URL_new inputUrl = Ok h)
       <-> (exists h, B.validateUrl URL_new inputUrl = Ok h)) /\
    (forall h f,
       A.validateUrl URL_new inputUrl = Ok h ->
       B.validateUrl URL_new inputUrl = Ok f ->
       exists urlObj,
         URL_new (with_scheme inputUrl) = Some urlObj /\
         hostname urlObj = h /\ href urlObj = f).
Proof.
  intros URL_new s.
  pose proof (with_scheme_has_prefix s) as Hp.
  pose proof (with_scheme_present _ Hp) as Hi.
  rewrite !A_validateUrl_eq, !B_validateUrl_eq, Hi.
  repeat split; try assumption.
  - intros [h H]. destruct (URL_new (with_scheme s)) as [u|]; [|discriminate].
    now exists (href u).
  - intros [h H]. destruct (URL_new (with_scheme s)) as [u|]; [|discriminate].
    now exists (hostname u).
  - intros h f Hh Hf. destruct (URL_new (with_scheme s)) as [u|]; [|discriminate].
    exists u. simpl in Hh, Hf. split; [reflexivity|]. split; congruence.
Qed.

Lemma validateUrl_normal_form_witness :
  exists urlObj,
    WHATWG.strict (with_scheme (lit "example.com")) = Some urlObj /\
    hostname urlObj = lit "example.com" /\
    href urlObj = lit "https://example.com/".
Proof.
  destruct (validateUrl_normal_form WHATWG.strict (lit "example.com"))
    as (_ & _ & _ & _ & _ & H).
  exact (H _ _ eq_refl eq_refl).
Defined.

(** ** Blank padding *)

Lemma dropWhile_app_all (T : Type) (p : T -> bool) (ws l : list T) :
  forallb p ws = true -> dropWhile p (ws ++ l) = dropWhile p l.
Proof.
  induction ws as [|a ws IH]; simpl; [reflexivity|].
  intros H. apply andb_true_iff in H as [-> H]. exact (IH H).
Qed.

Lemma dropWhile_app_kept (T : Type) (p : T -> bool) (l ws : list T) :
  dropWhile p l <> [] -> dropWhile p (l ++ ws) = dropWhile p l ++ ws.
Proof.
  induction l as [|a l IH]; simpl; [congruence|].
  destruct (p a); [exact IH|reflexivity].
Qed.

Lemma trimEnd_app_blank (l ws : jsstring) :
  forallb is_js_whitespace ws = true -> trimEnd (l ++ ws) = trimEnd l.
Proof.
  intros H. unfold trimEnd. rewrite rev_app_distr.
  rewrite dropWhile_app_all; [reflexivity|].
  now rewrite forallb_rev_eq.
Qed.

(** Whitespace around a string does not change its trim. *)
Lemma trim_padding (ws1 u ws2 : jsstring) :
  forallb is_js_whitespace ws1 = true ->
  forallb is_js_whitespace ws2 = true ->
  trim (ws1 ++ u ++ ws2) = trim u.
Proof.
  intros H1 H2. unfold trim, trimStart.
  rewrite dropWhile_app_all by exact H1.
  destruct (dropWhile is_js_whitespace u) as [|c r] eqn:Hu.
  - apply dropWhile_nil_iff in Hu.
    assert (Hall : forallb is_js_whitespace (u ++ ws2) = true)
      by now rewrite forallb_app, Hu, H2.
    apply dropWhile_nil_iff in Hall. now rewrite Hall.
  - rewrite dropWhile_app_kept by congruence.
    rewrite Hu. now apply trimEnd_app_blank.
Qed.

Lemma handleScan_by_trim (URL_new : URLConstructor) (d : A.Draws)
    (u1 u2 : jsstring) (flag : bool) (stored : option A.SecurityResult) :
  trim u1 = trim u2 ->
  exists c flag' stored' l,
    A.handleScan URL_new d (A.mkState u1 flag stored)
      = (c, A.mkState u1 flag' stored', l) /\
    A.handleScan URL_new d (A.mkState u2 flag stored)
      = (c, A.mkState u2 flag' stored', l).
Proof.
  intros Ht.
  destruct (is_empty (trim u1)) eqn:He.
  - rewrite !handleScan_empty by (cbn [A.url]; congruence).
    eexists _, _, _, _. split; reflexivity.
  - rewrite !handleScan_shape by (cbn [A.url]; congruence).
    destruct (A.validateUrl URL_new (trim u1)) as [domain|e] eqn:Hv.
    + rewrite !(handleScan_try_valid URL_new d _ domain)
        by (cbn [A.url]; congruence).
      cbn [A.url].
      destruct (A.checkSSL (A.ssl_draw d)); eexists _, _, _, _; split; reflexivity.
    + rewrite !(handleScan_try_invalid URL_new d _ e)
        by (cbn [A.url]; congruence).
      cbn [A.url A.results]. eexists _, _, _, _. split; reflexivity.
Qed.

Lemma checkSafety_by_trim (URL_new : URLConstructor)
    (network : jsstring -> B.FetchOutcome)
    (u1 u2 : jsstring) (flag : bool) (stored : option B.CheckResult) :
  trim u1 = trim u2 ->
  exists c flag' stored' l,
    B.checkSafety URL_new network (B.mkState u1 flag stored)
      = (c, B.mkState u1 flag' stored', l) /\
    B.checkSafety URL_new network (B.mkState u2 flag stored)
      = (c, B.mkState u2 flag' stored', l).
Proof.
  intros Ht.
  destruct (is_empty (trim u1)) eqn:He.
  - rewrite !checkSafety_empty by (cbn [B.url]; congruence).
    eexists _, _, _, _. split; reflexivity.
  - rewrite !checkSafety_shape by (cbn [B.url]; congruence).
    unfold B.checkSafety_try, B.fetch, B.await_json. js_unfold.
    cbn [B.url]. rewrite <- Ht.
    destruct (B.validateUrl URL_new (trim u1)) as [v|e]; js_simpl;
      [|eexists _, _, _, _; split; reflexivity].
    destruct (network v) as [response|e]; js_simpl;
      [|eexists _, _, _, _; split; reflexivity].
    destruct (B.ok response); js_simpl;
      [|eexists _, _, _, _; split; reflexivity].
    destruct (B.json response) as [data|e]; js_simpl;
      [|eexists _, _, _, _; split; reflexivity].
    destruct (B.matches data) as [[|m ms]|]; js_simpl;
      eexists _, _, _, _; split; reflexivity.
Qed.

(** X6: whitespace typed before or after the URL changes nothing: in either
    component the scan of the padded input completes the same way, emits
    the same events and leaves the same flag and stored result as the scan
    of the bare input. *)
Theorem padding_is_ignored :
  forall (URL_new : URLConstructor) (network : jsstring -> B.FetchOutcome)
         (d : A.Draws) (ws1 u ws2 : jsstring),
    forallb is_js_whitespace ws1 = true ->
    forallb is_js_whitespace ws2 = true ->
    (forall flag stored,
     exists c flag' stored' l,
       A.handleScan URL_new d (A.mkState (ws1 ++ u ++ ws2) flag stored)
         = (c, A.mkState (ws1 ++ u ++ ws2) flag' stored', l) /\
       A.handleScan URL_new d (A.mkState u flag stored)
         = (c, A.mkState u flag' stored', l)) /\
    (forall flag stored,
     exists c flag' stored' l,
       B.checkSafety URL_new network (B.mkState (ws1 ++ u ++ ws2) flag stored)
         = (c, B.mkState (ws1 ++ u ++ ws2) flag' stored', l) /\
       B.checkSafety URL_new network (B.mkState u flag stored)
         = (c, B.mkState u flag' stored', l)).
Proof.
  intros URL_new network d ws1 u ws2 H1 H2.
  pose proof (trim_padding ws1 u ws2 H1 H2) as Ht.
  split; intros flag stored.
  - now apply handleScan_by_trim.
  - now apply checkSafety_by_trim.
Qed.

Lemma padding_is_ignored_witness :
  exists c flag' stored' l,
    A.handleScan WHATWG.strict (A.mkDraws 0.5%float 0.5%float)
      (A.mkState (lit "  " ++ lit "example.com" ++ [9; 160]%N) false None)
      = (c, A.mkState (lit "  " ++ lit "example.com" ++ [9; 160]%N) flag' stored', l) /\
    A.handleScan WHATWG.strict (A.mkDraws 0.5%float 0.5%float)
      (A.mkState (lit "example.com") false None)
      = (c, A.mkState (lit "example.com") flag' stored', l).
Proof.
  exact (proj1 (padding_is_ignored WHATWG.strict
                  (fun _ => B.FetchRejects NonError)
                  (A.mkDraws 0.5%float 0.5%float)
                  (lit "  ") (lit "example.com") [9; 160]%N eq_refl eq_refl)
           false None).
Defined.

(** ** Component B: every path of [checkSafety] at once *)

Lemma checkSafety_paths (URL_new : URLConstructor)
    (network : jsstring -> B.FetchOutcome) (s : B.State) :
  is_empty (trim (B.url s)) = false ->
  B.checkSafety URL_new network s
    = match B.validateUrl URL_new (trim (B.url s)) with
      | Thrw e =>
          (Ok tt, B.mkState (B.url s) false (B.result s),
           [B.EConsoleError e; B.EToast (B.failure_toast e);
            B.ESetIsChecking false])
      | Ok v =>
          let failed e :=
            (Ok tt, B.mkState (B.url s) false None,
             [B.ESetIsChecking true; B.ESetResult None; B.EFetch v;
              B.EConsoleError e; B.EToast (B.failure_toast e);
              B.ESetIsChecking false]) in
          let stored r t :=
            (Ok tt, B.mkState (B.url s) false (Some r),
             [B.ESetIsChecking true; B.ESetResult None; B.EFetch v;
              B.ESetResult (Some r); B.EToast t; B.ESetIsChecking false]) in
          match network v with
          | B.FetchRejects e => failed e
          | B.FetchResolves response =>
              if B.ok response then
                match B.json response with
                | B.JsonRejects e => failed e
                | B.JsonResolves data =>
                    match B.matches data with
                    | Some (m :: ms) =>
                        stored (B.mkCheckResult false
                                  (Some (List.map B.threatType (m :: ms))))
                          (mkToast (lit "Security Warning")
                             (lit "Potential threats detected") destructive)
                    | _ =>
                        stored (B.mkCheckResult true None)
                          (mkToast (lit "Scan Complete")
                             (lit "Website is safe to visit") default_variant)
                    end
                end
              else
                failed (ErrorObj ErrorC
                          (lit "API Error: " ++ number_to_string (B.status response)))
          end
      end.
Proof.
  intros He. rewrite (checkSafety_shape URL_new network s He).
  unfold B.checkSafety_try, B.fetch, B.await_json. js_unfold.
  destruct (B.validateUrl URL_new (trim (B.url s))) as [v|e]; js_simpl;
    [|reflexivity].
  destruct (network v) as [response|e]; js_simpl; [|reflexivity].
  destruct (B.ok response); js_simpl; [|reflexivity].
  destruct (B.json response) as [data|e]; js_simpl; [|reflexivity].
  destruct (B.matches data) as [[|m ms]|]; reflexivity.
Qed.

Ltac checkSafety_cases :=
  cbv zeta;
  repeat match goal with
  | |- context [match B.validateUrl ?a ?b with _ => _ end] =>
      destruct (B.validateUrl a b) eqn:?
  | |- context [match ?n ?v with B.FetchResolves _ => _ | B.FetchRejects _ => _ end] =>
      destruct (n v) eqn:?
  | |- context [if B.ok ?r then _ else _] => destruct (B.ok r) eqn:?
  | |- context [match B.json ?r with _ => _ end] => destruct (B.json r) eqn:?
  | |- context [match B.matches ?d with _ => _ end] =>
      destruct (B.matches d) as [[|? ?]|] eqn:?
  end.

Lemma handleScan_paths (URL_new : URLConstructor) (d : A.Draws) (s : A.State) :
  is_empty (trim (A.url s)) = false ->
  A.handleScan URL_new d s
    = match A.validateUrl URL_new (trim (A.url s)) with
      | Thrw e =>
          (Ok tt, A.mkState (A.url s) false (A.results s),
           [A.EToast (A.failure_toast e); A.ESetIsScanning false])
      | Ok domain =>
          let started :=
            [A.ESetIsScanning true; A.ESetResults None;
             A.EConsoleLog (lit "Checking Safe Browsing for:") domain;
             A.ESetTimeout 1500;
             A.EConsoleLog (lit "Checking SSL for:") domain;
             A.ESetTimeout 2000] in
          let sb := A.checkSafeBrowsing domain (A.sb_draw d) in
          match A.checkSSL (A.ssl_draw d) with
          | Ok ssl =>
              (Ok tt,
               A.mkState (A.url s) false (Some (A.mkSecurityResult sb ssl)),
               started ++
               [A.ESafeBrowsingReturned sb; A.ESslReturned ssl;
                A.ESetResults (Some (A.mkSecurityResult sb ssl));
                A.EToast (mkToast (lit "Scan Complete")
                            (lit "Security scan completed for " ++ domain)
                            default_variant);
                A.ESetIsScanning false])
          | Thrw e =>
              (Ok tt, A.mkState (A.url s) false None,
               started ++
               [A.ESafeBrowsingReturned sb; A.ESslThrew e;
                A.EToast (A.failure_toast e); A.ESetIsScanning false])
          end
      end.
Proof.
  intros He. rewrite (handleScan_shape URL_new d s He).
  destruct (A.validateUrl URL_new (trim (A.url s))) as [domain|e] eqn:Hv.
  - rewrite (handleScan_try_valid URL_new d s domain Hv).
    destruct (A.checkSSL (A.ssl_draw d)); js_simpl; reflexivity.
  - rewrite (handleScan_try_invalid URL_new d s e Hv). reflexivity.
Qed.

(** X7: on a URL that does not validate, neither component starts
    anything: no timer is set and no request sent, the result stored before
    stays stored, the flag ends false, and the only toast is the failure
    toast with "Please enter a valid URL". *)
Theorem invalid_url_keeps_result :
  forall (URL_new : URLConstructor) (network : jsstring -> B.FetchOutcome)
         (d : A.Draws) (sa : A.State) (sb : B.State),
    (is_empty (trim (A.url sa)) = false ->
     URL_new (with_scheme (trim (A.url sa))) = None ->
     A.handleScan URL_new d sa
       = (Ok tt, A.mkState (A.url sa) false (A.results sa),
          [A.EToast (mkToast (lit "Scan Failed")
                       (lit "Please enter a valid URL") destructive);
           A.ESetIsScanning false]))
    /\
    (is_empty (trim (B.url sb)) = false ->
     URL_new (with_scheme (trim (B.url sb))) = None ->
     B.checkSafety URL_new network sb
       = (Ok tt, B.mkState (B.url sb) false (B.result sb),
          [B.EConsoleError (ErrorObj ErrorC (lit "Please enter a valid URL"));
           B.EToast (mkToast (lit "Check Failed")
                       (lit "Please enter a valid URL") destructive);
           B.ESetIsChecking false])).
Proof.
  intros URL_new network d sa sb. split; intros He Hn.
  - rewrite (handleScan_paths URL_new d sa He), A_validateUrl_eq, Hn.
    reflexivity.
  - rewrite (checkSafety_paths URL_new network sb He), B_validateUrl_eq, Hn.
    reflexivity.
Qed.

Lemma invalid_url_keeps_result_witness :
  A.handleScan WHATWG.strict (A.mkDraws 0.5%float 0.5%float)
    (A.mkState (lit "not a url") false
       (Some (A.mkSecurityResult
                (A.mkSafeBrowsing A.safe (lit "No threats detected"))
                (A.mkSsl (lit "F") A.poor (lit "SSL certificate grade: F")))))
    = (Ok tt,
       A.mkState (lit "not a url") false
         (Some (A.mkSecurityResult
                  (A.mkSafeBrowsing A.safe (lit "No threats detected"))
                  (A.mkSsl (lit "F") A.poor (lit "SSL certificate grade: F")))),
       [A.EToast (mkToast (lit "Scan Failed")
                    (lit "Please enter a valid URL") destructive);
        A.ESetIsScanning false])
  /\
  B.checkSafety WHATWG.strict (fun _ => B.FetchRejects NonError)
    (B.mkState (lit "not a url") false
       (Some (B.mkCheckResult false (Some [lit "MALWARE"]))))
    = (Ok tt,
       B.mkState (lit "not a url") false
         (Some (B.mkCheckResult false (Some [lit "MALWARE"]))),
       [B.EConsoleError (ErrorObj ErrorC (lit "Please enter a valid URL"));
        B.EToast (mkToast (lit "Check Failed")
                    (lit "Please enter a valid URL") destructive);
        B.ESetIsChecking false]).
Proof.
  destruct (invalid_url_keeps_result WHATWG.strict
              (fun _ => B.FetchRejects NonError)
              (A.mkDraws 0.5%float 0.5%float)
              (A.mkState (lit "not a url") false
                 (Some (A.mkSecurityResult
                          (A.mkSafeBrowsing A.safe (lit "No threats detected"))
                          (A.mkSsl (lit "F") A.poor
                             (lit "SSL certificate grade: F")))))
              (B.mkState (lit "not a url") false
                 (Some (B.mkCheckResult false (Some [lit "MALWARE"])))))
    as [Ha Hb].
  split; [apply Ha|apply Hb]; reflexivity.
Defined.

(** ** What the toast says and what is stored *)

Lemma B_failure_toast_title (e : Thrown) :
  title (B.failure_toast e) = lit "Connection Error" \/
  title (B.failure_toast e) = lit "Check Failed".
Proof.
  unfold B.failure_toast.
  destruct (instanceof_TypeError e && includes (message_of e) (lit "fetch"));
    [left|right]; reflexivity.
Qed.

Lemma B_failure_toast_variant (e : Thrown) :
  variant (B.failure_toast e) = destructive.
Proof.
  unfold B.failure_toast.
  now destruct (instanceof_TypeError e && includes (message_of e) (lit "fetch")).
Qed.

(** X8: every call of [handleScan] and of [checkSafety] completes normally
    and shows exactly one toast.  A "Scan Complete" toast (and in Component
    B a "Security Warning" one) comes with the verdict stored; every other
    toast is destructive and leaves the stored result null or as it was. *)
Theorem one_toast_per_call :
  forall (URL_new : URLConstructor) (network : jsstring -> B.FetchOutcome)
         (d : A.Draws) (sa : A.State) (sb : B.State),
    (exists s' l t,
       A.handleScan URL_new d sa = (Ok tt, s', l) /\
       A.toasts l = [t] /\
       (title t = lit "Scan Complete" ->
        variant t = default_variant /\ exists r, A.results s' = Some r) /\
       (title t <> lit "Scan Complete" ->
        variant t = destructive /\
        (title t = lit "URL Required" \/ title t = lit "Scan Failed") /\
        (A.results s' = None \/ A.results s' = A.results sa)))
    /\
    (exists s' l t,
       B.checkSafety URL_new network sb = (Ok tt, s', l) /\
       B.toasts l = [t] /\
       (title t = lit "Scan Complete" ->
        variant t = default_variant /\
        B.result s' = Some (B.mkCheckResult true None)) /\
       (title t = lit "Security Warning" ->
        exists x xs, B.result s' = Some (B.mkCheckResult false (Some (x :: xs)))) /\
       (title t <> lit "Scan Complete" ->
        title t <> lit "Security Warning" ->
        variant t = destructive /\
        (title t = lit "URL Required" \/ title t = lit "Check Failed"
         \/ title t = lit "Connection Error") /\
        (B.result s' = None \/ B.result s' = B.result sb))).
Proof.
  intros URL_new network d sa sb. split.
  - destruct (is_empty (trim (A.url sa))) eqn:He.
    + rewrite (handleScan_empty URL_new d sa He).
      eexists _, _, _. split; [reflexivity|]. split; [reflexivity|].
      split; [intros H; vm_compute in H; discriminate H|].
      intros _. repeat split; auto.
    + rewrite (handleScan_paths URL_new d sa He).
      destruct (A.validateUrl URL_new (trim (A.url sa))) as [domain|e].
      * cbv zeta. destruct (A.checkSSL (A.ssl_draw d)) as [ssl|e].
        -- eexists _, _, _. split; [reflexivity|]. split; [reflexivity|].
           split; [intros _; split; [reflexivity|eexists; reflexivity]|].
           intros H. now destruct H.
        -- eexists _, _, _. split; [reflexivity|]. split; [reflexivity|].
           split; [intros H; vm_compute in H; discriminate H|].
           intros _. repeat split; auto.
      * eexists _, _, _. split; [reflexivity|]. split; [reflexivity|].
        split; [intros H; vm_compute in H; discriminate H|].
        intros _. repeat split; auto.
  - destruct (is_empty (trim (B.url sb))) eqn:He.
    + rewrite (checkSafety_empty URL_new network sb He).
      eexists _, _, _. split; [reflexivity|]. split; [reflexivity|].
      split; [intros H; vm_compute in H; discriminate H|].
      split; [intros H; vm_compute in H; discriminate H|].
      intros _ _. repeat split; auto.
    + rewrite (checkSafety_paths URL_new network sb He).
      assert (Hfail : forall e (s' : B.State),
                 (B.result s' = None \/ B.result s' = B.result sb) ->
                 (title (B.failure_toast e) = lit "Scan Complete" ->
                  variant (B.failure_toast e) = default_variant /\
                  B.result s' = Some (B.mkCheckResult true None)) /\
                 (title (B.failure_toast e) = lit "Security Warning" ->
                  exists x xs,
                    B.result s' = Some (B.mkCheckResult false (Some (x :: xs)))) /\
                 (title (B.failure_toast e) <> lit "Scan Complete" ->
                  title (B.failure_toast e) <> lit "Security Warning" ->
                  variant (B.failure_toast e) = destructive /\
                  (title (B.failure_toast e) = lit "URL Required"
                   \/ title (B.failure_toast e) = lit "Check Failed"
                   \/ title (B.failure_toast e) = lit "Connection Error") /\
                  (B.result s' = None \/ B.result s' = B.result sb))).
      { intros e s' Hr.
        pose proof (B_failure_toast_variant e) as Hv.
        destruct (B_failure_toast_title e) as [Ht|Ht]; rewrite Ht.
        - split; [intros H; vm_compute in H; discriminate H|].
          split; [intros H; vm_compute in H; discriminate H|].
          intros _ _. repeat split; auto.
        - split; [intros H; vm_compute in H; discriminate H|].
          split; [intros H; vm_compute in H; discriminate H|].
          intros _ _. repeat split; auto. }
      checkSafety_cases;
        eexists _, _, _; (split; [reflexivity|]); (split; [reflexivity|]);
        try (apply Hfail; cbn [B.result]; auto).
      * split; [intros _; split; reflexivity|].
        split; [intros H; vm_compute in H; discriminate H|].
        intros H. now destruct H.
      * split; [intros H; vm_compute in H; discriminate H|].
        split; [intros _; eexists _, _; reflexivity|].
        intros _ H. now destruct H.
      * split; [intros _; split; reflexivity|].
        split; [intros H; vm_compute in H; discriminate H|].
        intros H. now destruct H.
Qed.

Lemma one_toast_per_call_witness :
  exists s' l t,
    B.checkSafety WHATWG.strict
      (fun _ => B.FetchResolves
                  (B.mkResponse 200 (B.JsonResolves (B.mkResponseBody (Some [])))))
      (B.mkState (lit "example.com") false None) = (Ok tt, s', l) /\
    B.toasts l = [t] /\
    variant t = default_variant /\
    B.result s' = Some (B.mkCheckResult true None).
Proof.
  destruct (one_toast_per_call WHATWG.strict
              (fun _ => B.FetchResolves
                          (B.mkResponse 200
                             (B.JsonResolves (B.mkResponseBody (Some [])))))
              (A.mkDraws 0.5%float 0.5%float)
              (A.mkState [] false None)
              (B.mkState (lit "example.com") false None))
    as [_ (s' & l & t & Hrun & Ht & Hdone & _)].
  exists s', l, t. split; [exact Hrun|]. split; [exact Ht|].
  apply Hdone.
  vm_compute in Hrun. injection Hrun as <- <-.
  vm_compute in Ht. injection Ht as <-. reflexivity.
Defined.

(** ** Component B: what is stored, what is sent, what a failure shows *)

(** X9: [checkSafety] keeps the stored result well formed: safe with no
    threats, or unsafe with at least one.  The unsafe card therefore shows
    at least one tag, as many as the threats stored. *)
Theorem stored_result_well_formed :
  forall (URL_new : URLConstructor) (network : jsstring -> B.FetchOutcome)
         (s : B.State),
    (forall r, B.result s = Some r -> B.well_formed r) ->
    exists s' l,
      B.checkSafety URL_new network s = (Ok tt, s', l) /\
      (forall r, B.result s' = Some r -> B.well_formed r) /\
      (forall tags,
         B.resultCard (B.render s') = Some (B.UnsafeCard tags) ->
         tags <> [] /\
         exists r ts,
           B.result s' = Some r /\ B.threats r = Some ts /\
           List.length tags = List.length ts).
Proof.
  intros URL_new network s Hwf.
  assert (Hcard : forall s' : B.State,
             (forall r, B.result s' = Some r -> B.well_formed r) ->
             forall tags,
               B.resultCard (B.render s') = Some (B.UnsafeCard tags) ->
               tags <> [] /\
               exists r ts,
                 B.result s' = Some r /\ B.threats r = Some ts /\
                 List.length tags = List.length ts).
  { intros s' Hs' tags Hc. unfold B.render in Hc. cbn [B.resultCard] in Hc.
    destruct (B.result s') as [r|] eqn:Hr; [|discriminate].
    destruct (negb (B.isChecking s')); [|discriminate].
    destruct (Hs' r eq_refl) as [[Hsafe _] | [Hsafe (t & ts & Hts)]];
      rewrite Hsafe in Hc; [discriminate|].
    rewrite Hts in Hc. injection Hc as <-.
    split; [discriminate|].
    exists r, (t :: ts). repeat split; [exact Hts|].
    exact (length_map replace_underscores (t :: ts)). }
  assert (Hrun : exists s' l,
             B.checkSafety URL_new network s = (Ok tt, s', l) /\
             (forall r, B.result s' = Some r -> B.well_formed r)).
  { destruct (is_empty (trim (B.url s))) eqn:He.
    - rewrite (checkSafety_empty URL_new network s He).
      eexists _, _. split; [reflexivity|exact Hwf].
    - rewrite (checkSafety_paths URL_new network s He).
      checkSafety_cases;
        eexists _, _; (split; [reflexivity|]);
        cbn [B.result]; intros res Hres;
        try discriminate Hres; try (now apply Hwf);
        injection Hres as <-.
      + left. split; reflexivity.
      + right. split; [reflexivity|]. eexists _, _. reflexivity.
      + left. split; reflexivity. }
  destruct Hrun as (s' & l & Hrun & Hs').
  exists s', l. split; [exact Hrun|]. split; [exact Hs'|now apply Hcard].
Qed.

Lemma stored_result_well_formed_witness :
  exists s' l,
    B.checkSafety WHATWG.strict
      (fun _ => B.FetchResolves
                  (B.mkResponse 200
                     (B.JsonResolves
                        (B.mkResponseBody
                           (Some [B.mkThreatMatch (lit "MALWARE")
                                    (lit "ANY_PLATFORM") (lit "URL")
                                    (lit "https://example.com/")])))))
      (B.mkState (lit "example.com") false None) = (Ok tt, s', l) /\
    (forall r, B.result s' = Some r -> B.well_formed r).
Proof.
  destruct (stored_result_well_formed WHATWG.strict
              (fun _ => B.FetchResolves
                          (B.mkResponse 200
                             (B.JsonResolves
                                (B.mkResponseBody
                                   (Some [B.mkThreatMatch (lit "MALWARE")
                                            (lit "ANY_PLATFORM") (lit "URL")
                                            (lit "https://example.com/")])))))
              (B.mkState (lit "example.com") false None))
    as (s' & l & Hrun & Hwf & _).
  - intros r H. discriminate H.
  - exists s', l. split; assumption.
Defined.

(** X10: a request is sent only for a URL that validated, and what it
    carries is the href [validateUrl] returned, never the raw input; it is
    sent once, right after the flag is set and the result cleared. *)
Theorem request_carries_validated_url :
  forall (URL_new : URLConstructor) (network : jsstring -> B.FetchOutcome)
         (s s' : B.State) (l : list B.Event) (c : Result unit) (v : jsstring),
    B.checkSafety URL_new network s = (c, s', l) ->
    In (B.EFetch v) l ->
    is_empty (trim (B.url s)) = false /\
    B.validateUrl URL_new (trim (B.url s)) = Ok v /\
    exists rest,
      l = [B.ESetIsChecking true; B.ESetResult None; B.EFetch v] ++ rest /\
      B.requests rest = [].
Proof.
  intros URL_new network s s' l c v Hrun Hin.
  destruct (is_empty (trim (B.url s))) eqn:He.
  { rewrite (checkSafety_empty URL_new network s He) in Hrun.
    injection Hrun as _ _ <-. destruct Hin as [Hin|[]]. discriminate Hin. }
  split; [reflexivity|].
  rewrite (checkSafety_paths URL_new network s He) in Hrun.
  revert Hrun.
  checkSafety_cases; intros Hrun;
    injection Hrun as _ _ <-;
    simpl in Hin;
    repeat (destruct Hin as [Hin|Hin]; [try discriminate Hin|]);
    try contradiction;
    injection Hin as ->; (split; [reflexivity|]);
    eexists; split; reflexivity.
Qed.

Lemma request_carries_validated_url_witness :
  B.validateUrl WHATWG.strict (trim (lit " example.com "))
    = Ok (lit "https://example.com/").
Proof.
  refine (proj1 (proj2
    (request_carries_validated_url WHATWG.strict
       (fun _ => B.FetchRejects NonError)
       (B.mkState (lit " example.com ") false None)
       _ _ _ (lit "https://example.com/") eq_refl _))).
  simpl. right. right. left. reflexivity.
Defined.

(** X11: when the request or the reading of its body fails with [e], the
    check ends with the result null and the flag false, after logging [e]
    and showing one toast: "Connection Error" exactly when [e] is a
    TypeError whose message contains "fetch", and otherwise "Check Failed"
    with the message of [e], or with "Failed to check website safety" when
    [e] is not an Error. *)
Theorem network_failure_toast :
  forall (URL_new : URLConstructor) (network : jsstring -> B.FetchOutcome)
         (s : B.State) (v : jsstring) (e : Thrown),
    is_empty (trim (B.url s)) = false ->
    B.validateUrl URL_new (trim (B.url s)) = Ok v ->
    (network v = B.FetchRejects e \/
     exists response,
       network v = B.FetchResolves response /\ B.ok response = true /\
       B.json response = B.JsonRejects e) ->
    B.checkSafety URL_new network s
      = (Ok tt, B.mkState (B.url s) false None,
         [B.ESetIsChecking true; B.ESetResult None; B.EFetch v;
          B.EConsoleError e; B.EToast (B.failure_toast e);
          B.ESetIsChecking false]) /\
    (title (B.failure_toast e) = lit "Connection Error" <->
     exists msg, e = ErrorObj TypeErrorC msg /\ includes msg (lit "fetch") = true) /\
    (title (B.failure_toast e) <> lit "Connection Error" ->
     B.failure_toast e
       = mkToast (lit "Check Failed")
           (match e with
            | ErrorObj _ msg => msg
            | NonError => lit "Failed to check website safety"
            end) destructive).
Proof.
  intros URL_new network s v e He Hv Hfail.
  split; [|split].
  - rewrite (checkSafety_paths URL_new network s He), Hv. cbv zeta.
    destruct Hfail as [-> | (response & -> & -> & ->)]; reflexivity.
  - unfold B.failure_toast.
    destruct e as [[] msg|]; cbn [instanceof_TypeError message_of andb];
      try (split; [intros H; vm_compute in H; discriminate H
                  |intros (m & H & _); discriminate H]).
    destruct (includes msg (lit "fetch")) eqn:Hi.
    + split; [intros _; now exists msg|reflexivity].
    + split; [intros H; vm_compute in H; discriminate H|].
      intros (m & [= <-] & H). congruence.
  - unfold B.failure_toast.
    destruct (instanceof_TypeError e && includes (message_of e) (lit "fetch")).
    + intros H. now destruct H.
    + intros _. now destruct e.
Qed.

Lemma network_failure_toast_witness :
  B.checkSafety WHATWG.strict
    (fun _ => B.FetchRejects (ErrorObj TypeErrorC (lit "Load failed")))
    (B.mkState (lit "example.com") false None)
    = (Ok tt, B.mkState (lit "example.com") false None,
       [B.ESetIsChecking true; B.ESetResult None;
        B.EFetch (lit "https://example.com/");
        B.EConsoleError (ErrorObj TypeErrorC (lit "Load failed"));
        B.EToast (mkToast (lit "Check Failed") (lit "Load failed") destructive);
        B.ESetIsChecking false]).
Proof.
  exact (proj1 (network_failure_toast WHATWG.strict
                  (fun _ => B.FetchRejects (ErrorObj TypeErrorC (lit "Load failed")))
                  (B.mkState (lit "example.com") false None)
                  (lit "https://example.com/")
                  (ErrorObj TypeErrorC (lit "Load failed"))
                  eq_refl eq_refl (or_introl eq_refl))).
Defined.

(** ** Component A under the event loop, again *)

Ltac count_events :=
  unfold A.scan_starts, A.timers in *; cbn [A.log] in *;
  rewrite ?filter_app, ?length_app; cbn [filter List.length]; lia.

Lemma step_timers (URL_new : URLConstructor) (c : A.Config) (i : A.Input) :
  List.length (A.timers (A.log c)) = 2 * A.scan_starts (A.log c) ->
  List.length (A.timers (A.log (A.step URL_new c i)))
    = 2 * A.scan_starts (A.log (A.step URL_new c i)).
Proof.
  intros H. destruct c as [s ph l]. cbn [A.log] in H.
  destruct i as [u | | draw | draw]; cbn [A.step A.st A.phase A.log].
  - exact H.
  - destruct (A.isScanning s); [exact H|].
    destruct (is_empty (trim (A.url s))) eqn:He.
    + rewrite (to_await_empty URL_new s He). count_events.
    + destruct (A.validateUrl URL_new (trim (A.url s))) as [domain|e] eqn:Hv.
      * rewrite (to_await_valid URL_new s domain He Hv). count_events.
      * rewrite (to_await_invalid URL_new s e He Hv). count_events.
  - destruct ph as [|domain [a|] [b|]]; try exact H;
      unfold A.resume; rewrite ?resume_joined; count_events.
  - destruct ph as [|domain sb [b|]]; try exact H.
    destruct (A.checkSSL draw) as [b|e]; [destruct sb as [a|]|];
      unfold A.resume; rewrite ?resume_joined, ?resume_rejected; count_events.
Qed.

Lemma run_timers (URL_new : URLConstructor) (inputs : list A.Input)
    (c : A.Config) :
  List.length (A.timers (A.log c)) = 2 * A.scan_starts (A.log c) ->
  List.length (A.timers (A.log (A.run URL_new c inputs)))
    = 2 * A.scan_starts (A.log (A.run URL_new c inputs)).
Proof.
  revert c. induction inputs as [|i inputs IH]; intros c H; [exact H|].
  unfold A.run in *. cbn [fold_left]. apply IH. apply step_timers. exact H.
Qed.

(** X12: in every configuration the event loop reaches, the scanning flag
    is true exactly while a scan is pending, and then the loading card is
    shown, the button is disabled and a further activation changes
    nothing, so two scans never overlap; and the timers set so far are two
    for each scan started. *)
Theorem scans_do_not_overlap :
  forall (URL_new : URLConstructor) (inputs : list A.Input),
    let c := A.run URL_new A.mounted inputs in
    (A.isScanning (A.st c) = false <-> A.phase c = A.Idle) /\
    (A.phase c <> A.Idle ->
     A.loadingCard (A.render (A.st c)) = true /\
     A.buttonDisabled (A.render (A.st c)) = true /\
     A.step URL_new c A.Activate = c) /\
    List.length (A.timers (A.log c)) = 2 * A.scan_starts (A.log c).
Proof.
  intros URL_new inputs c.
  destruct (run_invariant URL_new inputs A.mounted mounted_invariant)
    as (_ & _ & Hphase).
  fold c in Hphase.
  assert (Hflag : A.isScanning (A.st c) = false <-> A.phase c = A.Idle).
  { destruct (A.phase c) as [|domain sb ssl].
    - split; [reflexivity|intros _; exact Hphase].
    - destruct Hphase as (Ht & _). rewrite Ht.
      split; intros H; discriminate H. }
  split; [exact Hflag|]. split.
  - intros Hn.
    assert (Ht : A.isScanning (A.st c) = true).
    { destruct (A.isScanning (A.st c)); [reflexivity|].
      exfalso. apply Hn, Hflag. reflexivity. }
    unfold A.render. cbn [A.loadingCard A.buttonDisabled A.step].
    rewrite Ht. repeat split.
  - apply run_timers. reflexivity.
Qed.

Lemma scans_do_not_overlap_witness :
  let c := A.run WHATWG.strict A.mounted
             [A.TypeUrl (lit "example.com"); A.Activate] in
  A.loadingCard (A.render (A.st c)) = true /\
  A.buttonDisabled (A.render (A.st c)) = true /\
  A.step WHATWG.strict c A.Activate = c.
Proof.
  intros c.
  destruct (scans_do_not_overlap WHATWG.strict
              [A.TypeUrl (lit "example.com"); A.Activate])
    as (_ & H & _).
  apply H. discriminate.
Defined.

(** X13: once a scan is pending, the order in which the two timers fire
    does not matter: both orders end with no scan pending, the same state
    and the same toast. *)
Theorem timer_order_is_irrelevant :
  forall (URL_new : URLConstructor) (c : A.Config) (domain : jsstring)
         (draw1 draw2 : float),
    A.phase c = A.Awaiting domain None None ->
    let c12 := A.run URL_new c [A.SafeBrowsingTimer draw1; A.SslTimer draw2] in
    let c21 := A.run URL_new c [A.SslTimer draw2; A.SafeBrowsingTimer draw1] in
    A.st c12 = A.st c21 /\
    A.phase c12 = A.Idle /\ A.phase c21 = A.Idle /\
    A.toasts (A.log c12) = A.toasts (A.log c21).
Proof.
  intros URL_new [s ph l] domain draw1 draw2 Hph. cbn [A.phase] in Hph. subst ph.
  unfold A.run. cbn [fold_left A.step A.phase A.st A.log].
  destruct (A.checkSSL draw2) as [b|e]; cbn [A.phase A.st A.log A.step];
    unfold A.resume; cbn [A.st A.log A.phase];
    rewrite ?resume_joined, ?resume_rejected; cbn [A.st A.log A.phase].
  - repeat split. unfold A.toasts. rewrite !flat_map_app.
    cbn [flat_map app]. reflexivity.
  - repeat split. unfold A.toasts. rewrite !flat_map_app.
    cbn [flat_map app]. rewrite <- ?app_assoc. reflexivity.
Qed.

Lemma timer_order_is_irrelevant_witness :
  let c := A.run WHATWG.strict A.mounted
             [A.TypeUrl (lit "example.com"); A.Activate] in
  A.st (A.run WHATWG.strict c [A.SafeBrowsingTimer 0.2%float; A.SslTimer 0.9%float])
    = A.st (A.run WHATWG.strict c [A.SslTimer 0.9%float; A.SafeBrowsingTimer 0.2%float]).
Proof.
  intros c.
  exact (proj1 (timer_order_is_irrelevant WHATWG.strict c (lit "example.com")
                  0.2%float 0.9%float eq_refl)).
Defined.

Lemma typing_commutes_with_timer (URL_new : URLConstructor) (c : A.Config)
    (u : jsstring) (i : A.Input) :
  A.is_timer i = true ->
  A.step URL_new (A.step URL_new c (A.TypeUrl u)) i
    = A.step URL_new (A.step URL_new c i) (A.TypeUrl u).
Proof.
  intros Hi. destruct c as [s ph l].
  destruct i as [u' | | draw | draw]; try discriminate Hi;
    cbn [A.step A.st A.phase A.log A.isScanning A.results].
  - destruct ph as [|domain [a|] [b|]]; reflexivity.
  - destruct ph as [|domain sb [b|]]; try reflexivity.
    destruct (A.checkSSL draw) as [b|e]; [destruct sb as [a|]|]; reflexivity.
Qed.

(** X14: typing in the field while a scan is pending does not touch the
    scan: the timers lead to the same configuration, typed URL apart,
    whether the typing comes before them or after. *)
Theorem typing_does_not_disturb_scan :
  forall (URL_new : URLConstructor) (c : A.Config) (u : jsstring)
         (timers : list A.Input),
    forallb A.is_timer timers = true ->
    A.run URL_new (A.step URL_new c (A.TypeUrl u)) timers
      = A.step URL_new (A.run URL_new c timers) (A.TypeUrl u).
Proof.
  intros URL_new c u timers. revert c.
  induction timers as [|i timers IH]; intros c H; [reflexivity|].
  simpl in H. apply andb_true_iff in H as [Hi H].
  unfold A.run in *. cbn [fold_left].
  rewrite (typing_commutes_with_timer URL_new c u i Hi).
  apply IH, H.
Qed.

Lemma typing_does_not_disturb_scan_witness :
  let c := A.run WHATWG.strict A.mounted
             [A.TypeUrl (lit "example.com"); A.Activate] in
  A.run WHATWG.strict (A.step WHATWG.strict c (A.TypeUrl (lit "other.org")))
    [A.SafeBrowsingTimer 0.2%float; A.SslTimer 0.5%float]
  = A.step WHATWG.strict
      (A.run WHATWG.strict c [A.SafeBrowsingTimer 0.2%float; A.SslTimer 0.5%float])
      (A.TypeUrl (lit "other.org")).
Proof.
  intros c.
  exact (typing_does_not_disturb_scan WHATWG.strict c (lit "other.org")
           [A.SafeBrowsingTimer 0.2%float; A.SslTimer 0.5%float] eq_refl).
Defined.

(** ** Component B under the event loop *)

Lemma requests_open_app (o : bool) (l1 l2 : list B.Event) :
  B.requests_open o (l1 ++ l2)
    = match B.requests_open o l1 with
      | Some o' => B.requests_open o' l2
      | None => None
      end.
Proof.
  revert o. induction l1 as [|e l1 IH]; intros o; [reflexivity|].
  destruct e as [t | [|] | r | v | x]; cbn [app B.requests_open]; try apply IH.
  destruct o; [reflexivity|apply IH].
Qed.

Lemma requests_closed_by_reset (mid : list B.Event) :
  B.requests_open true mid = Some false -> In (B.ESetIsChecking false) mid.
Proof.
  induction mid as [|e mid IH]; cbn [B.requests_open]; [discriminate|].
  destruct e as [t | [|] | r | v | x]; intros H;
    try (right; exact (IH H)); [now left|discriminate H].
Qed.

(** In a log with never two requests open, a reset of the flag lies
    between any two requests. *)
Lemma requests_open_no_overlap (o o' : bool) (l pre mid post : list B.Event)
    (v v' : jsstring) :
  B.requests_open o l = Some o' ->
  l = pre ++ B.EFetch v :: mid ++ B.EFetch v' :: post ->
  In (B.ESetIsChecking false) mid.
Proof.
  intros H ->. rewrite requests_open_app in H.
  destruct (B.requests_open o pre) as [[|]|]; cbn [B.requests_open] in H;
    try discriminate H.
  rewrite requests_open_app in H.
  destruct (B.requests_open true mid) as [[|]|] eqn:Hmid;
    cbn [B.requests_open] in H; try discriminate H.
  now apply requests_closed_by_reset.
Qed.

Section CheckInvariant.

Variable URL_new : URLConstructor.

Lemma to_fetch_empty (s : B.State) :
  is_empty (trim (B.url s)) = true ->
  B.checkSafety_to_fetch URL_new s
    = (Ok None, s,
       [B.EToast (mkToast (lit "URL Required")
                    (lit "Please enter a website URL to check") destructive)]).
Proof.
  intros He. unfold B.checkSafety_to_fetch. js_unfold. now rewrite He.
Qed.

Lemma to_fetch_invalid (s : B.State) (e : Thrown) :
  is_empty (trim (B.url s)) = false ->
  B.validateUrl URL_new (trim (B.url s)) = Thrw e ->
  B.checkSafety_to_fetch URL_new s
    = (Ok None, B.mkState (B.url s) false (B.result s),
       [B.EConsoleError e; B.EToast (B.failure_toast e);
        B.ESetIsChecking false]).
Proof.
  intros He Hv. unfold B.checkSafety_to_fetch, B.request_begin, B.fail.
  js_unfold. rewrite He, Hv, checkSafety_catch_eq. reflexivity.
Qed.

Lemma to_fetch_valid (s : B.State) (v : jsstring) :
  is_empty (trim (B.url s)) = false ->
  B.validateUrl URL_new (trim (B.url s)) = Ok v ->
  B.checkSafety_to_fetch URL_new s
    = (Ok (Some v), B.mkState (B.url s) true None,
       [B.ESetIsChecking true; B.ESetResult None; B.EFetch v]).
Proof.
  intros He Hv. unfold B.checkSafety_to_fetch, B.request_begin.
  js_unfold. now rewrite He, Hv.
Qed.

Lemma fail_eq (e : Thrown) (s : B.State) :
  B.fail e s
    = (Ok tt, B.mkState (B.url s) false (B.result s),
       [B.EConsoleError e; B.EToast (B.failure_toast e);
        B.ESetIsChecking false]).
Proof.
  unfold B.fail. js_unfold. rewrite checkSafety_catch_eq. reflexivity.
Qed.

Lemma response_check_eq (o : B.FetchOutcome) (s : B.State) :
  B.response_check o s
    = match o with
      | B.FetchRejects e => (Thrw e, s, [])
      | B.FetchResolves response =>
          if B.ok response then (Ok response, s, [])
          else (Thrw (ErrorObj ErrorC
                        (lit "API Error: " ++ number_to_string (B.status response))),
                s, [])
      end.
Proof.
  unfold B.response_check. js_unfold.
  destruct o as [response|e]; [|reflexivity].
  now destruct (B.ok response).
Qed.

Lemma settle_verdict_eq (response : B.Response) (s : B.State) :
  try_finally (try_catch (B.verdict response) B.checkSafety_catch)
    (B.setIsChecking false) s
    = match B.json response with
      | B.JsonRejects e =>
          (Ok tt, B.mkState (B.url s) false (B.result s),
           [B.EConsoleError e; B.EToast (B.failure_toast e);
            B.ESetIsChecking false])
      | B.JsonResolves data =>
          match B.matches data with
          | Some (m :: ms) =>
              (Ok tt,
               B.mkState (B.url s) false
                 (Some (B.mkCheckResult false
                          (Some (List.map B.threatType (m :: ms))))),
               [B.ESetResult
                  (Some (B.mkCheckResult false
                           (Some (List.map B.threatType (m :: ms)))));
                B.EToast (mkToast (lit "Security Warning")
                            (lit "Potential threats detected") destructive);
                B.ESetIsChecking false])
          | _ =>
              (Ok tt,
               B.mkState (B.url s) false (Some (B.mkCheckResult true None)),
               [B.ESetResult (Some (B.mkCheckResult true None));
                B.EToast (mkToast (lit "Scan Complete")
                            (lit "Website is safe to visit") default_variant);
                B.ESetIsChecking false])
          end
      end.
Proof.
  unfold B.verdict, B.await_json. js_unfold.
  destruct (B.json response) as [data|e].
  - destruct (B.matches data) as [[|m ms]|]; reflexivity.
  - rewrite checkSafety_catch_eq. reflexivity.
Qed.

Lemma start_invariant (c : B.Config) :
  B.check_invariant c ->
  B.isChecking (B.st c) = false ->
  B.check_invariant (B.start URL_new c).
Proof.
  intros (Hflag & Hres & Hlog) Hidle. destruct c as [s ph l].
  cbn [B.st B.phase B.log] in *. unfold B.start. cbn [B.st B.phase B.log].
  assert (Hp : B.pending ph = false) by congruence.
  rewrite Hp in Hlog.
  destruct (is_empty (trim (B.url s))) eqn:He.
  - rewrite (to_fetch_empty s He). unfold B.check_invariant.
    cbn [B.st B.phase B.log]. rewrite requests_open_app, Hlog.
    repeat split; try assumption. cbn [B.requests_open]. now rewrite Hp.
  - destruct (B.validateUrl URL_new (trim (B.url s))) as [v|e] eqn:Hv.
    + rewrite (to_fetch_valid s v He Hv). unfold B.check_invariant.
      cbn [B.st B.phase B.log B.pending B.isChecking B.result].
      rewrite requests_open_app, Hlog. repeat split.
    + rewrite (to_fetch_invalid s e He Hv). unfold B.check_invariant.
      cbn [B.st B.phase B.log B.isChecking B.result].
      rewrite requests_open_app, Hlog, Hp. cbn [B.requests_open].
      repeat split. intros H. discriminate H.
Qed.

Lemma step_check_invariant (c : B.Config) (i : B.Input) :
  B.check_invariant c -> B.check_invariant (B.step URL_new c i).
Proof.
  intros Hinv. pose proof Hinv as (Hflag & Hres & Hlog).
  destruct i as [u | | key | o | ]; cbn [B.step].
  - destruct (B.isChecking (B.st c)) eqn:Hc; [exact Hinv|].
    unfold B.check_invariant. cbn [B.st B.phase B.log B.isChecking B.result].
    split; [congruence|]. split; [exact Hres|exact Hlog].
  - destruct (B.isChecking (B.st c)) eqn:Hc; [exact Hinv|].
    now apply start_invariant.
  - destruct (B.isChecking (B.st c)) eqn:Hc; [exact Hinv|].
    destruct (jsstring_eqb key (lit "Enter") && negb false); [|exact Hinv].
    now apply start_invariant.
  - destruct c as [s ph l]. cbn [B.st B.phase B.log] in *.
    destruct ph as [|v|response]; try exact Hinv.
    cbn [B.pending] in *. rewrite response_check_eq.
    destruct o as [response|e]; [destruct (B.ok response)|];
      rewrite ?fail_eq; unfold B.check_invariant;
      cbn [B.st B.phase B.log B.pending B.isChecking B.result];
      rewrite ?app_nil_r, ?requests_open_app, ?Hlog; repeat split; auto;
      intros H; discriminate H.
  - destruct c as [s ph l]. cbn [B.st B.phase B.log] in *.
    destruct ph as [|v|response]; try exact Hinv.
    cbn [B.pending] in *. rewrite settle_verdict_eq.
    destruct (B.json response) as [data|e];
      [destruct (B.matches data) as [[|m ms]|]|];
      unfold B.check_invariant;
      cbn [B.st B.phase B.log B.pending B.isChecking B.result];
      rewrite requests_open_app, Hlog; repeat split;
      intros H; discriminate H.
Qed.

Lemma run_check_invariant (inputs : list B.Input) (c : B.Config) :
  B.check_invariant c -> B.check_invariant (B.run URL_new c inputs).
Proof.
  revert c. induction inputs as [|i inputs IH]; intros c Hc; [exact Hc|].
  unfold B.run in *. cbn [fold_left]. apply IH, step_check_invariant, Hc.
Qed.

End CheckInvariant.

Lemma mounted_check_invariant : B.check_invariant B.mounted.
Proof. repeat split; intros H; discriminate H. Qed.

(** [checkSafety] run to its end is the event loop's run in which the
    button is clicked, the request settles and the body is read. *)
Lemma checkSafety_as_run (URL_new : URLConstructor)
    (network : jsstring -> B.FetchOutcome) (s : B.State) (l0 : list B.Event) :
  B.isChecking s = false ->
  let settled :=
    match B.validateUrl URL_new (trim (B.url s)) with
    | Ok v => network v
    | Thrw e => B.FetchRejects e
    end in
  let c := B.run URL_new (B.mkConfig s B.Idle l0)
             [B.Click; B.FetchSettled settled; B.JsonSettled] in
  exists l,
    B.checkSafety URL_new network s = (Ok tt, B.st c, l) /\
    B.log c = l0 ++ l /\
    B.phase c = B.Idle.
Proof.
  intros Hidle. unfold B.run. cbn [fold_left B.step B.st B.phase B.log].
  rewrite Hidle. unfold B.start. cbn [B.st B.phase B.log].
  destruct (is_empty (trim (B.url s))) eqn:He.
  - rewrite (to_fetch_empty URL_new s He), (checkSafety_empty URL_new network s He).
    cbn [B.st B.phase B.log]. eexists. repeat split.
  - rewrite (checkSafety_paths URL_new network s He).
    destruct (B.validateUrl URL_new (trim (B.url s))) as [v|e] eqn:Hv.
    + rewrite (to_fetch_valid URL_new s v He Hv). cbv zeta.
      cbn [B.st B.phase B.log]. rewrite response_check_eq.
      destruct (network v) as [response|e]; [destruct (B.ok response)|];
        rewrite ?fail_eq; cbn [B.st B.phase B.log];
        rewrite ?settle_verdict_eq.
      * destruct (B.json response) as [data|e];
          [destruct (B.matches data) as [[|m ms]|]|];
          cbn [B.st B.phase B.log B.url B.result app];
          eexists; (split; [reflexivity|]);
          rewrite <- ?app_assoc; repeat split.
      * cbn [B.url B.result app]. eexists. split; [reflexivity|].
        rewrite <- ?app_assoc. repeat split.
      * cbn [B.url B.result app]. eexists. split; [reflexivity|].
        rewrite <- ?app_assoc. repeat split.
    + rewrite (to_fetch_invalid URL_new s e He Hv).
      cbn [B.st B.phase B.log]. eexists. repeat split.
Qed.

(** X15: in every configuration Component B's event loop reaches, the
    checking flag is true exactly while a check is pending; meanwhile
    [result] is null, the loading card is shown and no result card, and a
    click, a key press or typing changes nothing; and no request is sent
    while another is open: between any two requests in the log the flag
    was reset. *)
Theorem one_request_in_flight :
  forall (URL_new : URLConstructor) (inputs : list B.Input),
    let c := B.run URL_new B.mounted inputs in
    (B.isChecking (B.st c) = false <-> B.phase c = B.Idle) /\
    (B.phase c <> B.Idle ->
     B.result (B.st c) = None /\
     B.loadingCard (B.render (B.st c)) = true /\
     B.resultCard (B.render (B.st c)) = None /\
     B.step URL_new c B.Click = c /\
     (forall key, B.step URL_new c (B.KeyPress key) = c) /\
     (forall u, B.step URL_new c (B.TypeUrl u) = c)) /\
    (forall pre v mid v' post,
       B.log c = pre ++ B.EFetch v :: mid ++ B.EFetch v' :: post ->
       In (B.ESetIsChecking false) mid).
Proof.
  intros URL_new inputs c.
  destruct (run_check_invariant URL_new inputs B.mounted mounted_check_invariant)
    as (Hflag & Hres & Hlog).
  fold c in Hflag, Hres, Hlog.
  split; [|split].
  - rewrite Hflag. destruct (B.phase c); cbn [B.pending];
      split; intros H; try reflexivity; discriminate H.
  - intros Hn.
    assert (Hp : B.pending (B.phase c) = true)
      by (destruct (B.phase c); [now destruct Hn|reflexivity|reflexivity]).
    rewrite Hp in Hflag. specialize (Hres Hp).
    unfold B.render. cbn [B.loadingCard B.resultCard B.step].
    rewrite Hflag, Hres. repeat split.
  - intros pre v mid v' post Hsplit.
    exact (requests_open_no_overlap _ _ _ _ _ _ _ _ Hlog Hsplit).
Qed.

Lemma one_request_in_flight_witness :
  let c := B.run WHATWG.strict B.mounted
             [B.TypeUrl (lit "example.com"); B.KeyPress (lit "Enter")] in
  B.result (B.st c) = None /\
  B.loadingCard (B.render (B.st c)) = true /\
  B.step WHATWG.strict c B.Click = c.
Proof.
  intros c.
  destruct (one_request_in_flight WHATWG.strict
              [B.TypeUrl (lit "example.com"); B.KeyPress (lit "Enter")])
    as (_ & H & _).
  destruct H as (H1 & H2 & _ & H3 & _); [discriminate|].
  repeat split; assumption.
Defined.

(** ** The range of the SSL draw *)

Ltac sf_cases :=
  simpl; try discriminate; try reflexivity;
  change (Pos.compare_cont Eq) with Pos.compare;
  repeat match goal with
  | |- context [(?a ?= ?b)%Z] => destruct (Z.compare_spec a b)
  | |- context [(?a ?= ?b)%positive] => destruct (Pos.compare_spec a b)
  end; simpl; try discriminate; try reflexivity; try lia.

Lemma SFcompare_antisym (a b : spec_float) :
  SFcompare b a = match SFcompare a b with
                  | Some c => Some (CompOpp c)
                  | None => None
                  end.
Proof.
  destruct a as [sa|sa| |sa ma ea], b as [sb|sb| |sb mb eb]; simpl;
    try reflexivity; try (destruct sa; reflexivity); try (destruct sb; reflexivity);
    try (destruct sa, sb; reflexivity).
  destruct sa, sb; try reflexivity;
    rewrite (Z.compare_antisym ea eb); destruct (ea ?= eb)%Z; simpl;
    try reflexivity; f_equal;
    change (Pos.compare_cont Eq) with Pos.compare;
    rewrite (Pos.compare_antisym ma mb); destruct (ma ?= mb)%positive; reflexivity.
Qed.

Lemma SFleb_of_not_ltb (a b : spec_float) :
  SFleb a a = true -> SFleb b b = true ->
  SFltb a b = false -> SFleb b a = true.
Proof.
  unfold SFleb, SFltb. rewrite (SFcompare_antisym a b).
  intros Ha Hb.
  destruct (SFcompare a b) as [[| |]|] eqn:E; simpl;
    try reflexivity; try discriminate.
  intros _. exfalso. destruct a, b; simpl in *; discriminate.
Qed.

Lemma SFleb_trans (a b c : spec_float) :
  SFleb a b = true -> SFleb b c = true -> SFleb a c = true.
Proof.
  unfold SFleb.
  destruct a as [sa|sa| |sa ma ea], b as [sb|sb| |sb mb eb], c as [sc|sc| |sc mc ec];
    simpl; try discriminate; try reflexivity;
    try (destruct sa); try (destruct sb); try (destruct sc); sf_cases.
Qed.

Lemma SFltb_leb_trans (a b c : spec_float) :
  SFltb a b = true -> SFleb b c = true -> SFltb a c = true.
Proof.
  unfold SFleb, SFltb.
  destruct a as [sa|sa| |sa ma ea], b as [sb|sb| |sb mb eb], c as [sc|sc| |sc mc ec];
    simpl; try discriminate; try reflexivity;
    try (destruct sa); try (destruct sb); try (destruct sc); sf_cases.
Qed.

Lemma SFleb_refl_left (a b : spec_float) : SFleb a b = true -> SFleb b b = true.
Proof.
  unfold SFleb. intros H.
  destruct b as [sb|sb| |sb mb eb].
  - reflexivity.
  - now destruct sb.
  - destruct a; discriminate H.
  - simpl. rewrite Z.compare_refl.
    change (Pos.compare_cont Eq) with Pos.compare. rewrite Pos.compare_refl.
    now destruct sb.
Qed.

(** The order of binary64 numbers, as the comparisons of the code see it. *)
Lemma float_leb_of_not_ltb (x k : float) :
  PrimFloat.leb 0%float x = true ->
  PrimFloat.leb k k = true ->
  PrimFloat.ltb x k = false ->
  PrimFloat.leb k x = true.
Proof.
  rewrite !leb_spec, ltb_spec. intros H0 Hk Hlt.
  apply SFleb_of_not_ltb; [|exact Hk|exact Hlt].
  exact (SFleb_refl_left _ _ H0).
Qed.

Lemma float_leb_trans (a b c : float) :
  PrimFloat.leb a b = true -> PrimFloat.leb b c = true ->
  PrimFloat.leb a c = true.
Proof. rewrite !leb_spec. apply SFleb_trans. Qed.

Lemma float_ltb_leb_trans (a b c : float) :
  PrimFloat.ltb a b = true -> PrimFloat.leb b c = true ->
  PrimFloat.ltb a c = true.
Proof. rewrite !ltb_spec, leb_spec. apply SFltb_leb_trans. Qed.

Lemma index_floor_grades (x : float) :
  A.index_floor A.grades 0%float x
    = if PrimFloat.leb 0%float x && PrimFloat.ltb x 1%float then Some (lit "A+")
      else if PrimFloat.leb 1%float x && PrimFloat.ltb x 2%float then Some (lit "A")
      else if PrimFloat.leb 2%float x && PrimFloat.ltb x 3%float then Some (lit "A-")
      else if PrimFloat.leb 3%float x && PrimFloat.ltb x 4%float then Some (lit "B")
      else if PrimFloat.leb 4%float x && PrimFloat.ltb x 5%float then Some (lit "C")
      else if PrimFloat.leb 5%float x && PrimFloat.ltb x 6%float then Some (lit "F")
      else None.
Proof. reflexivity. Qed.

Lemma index_floor_in_range (x : float) :
  PrimFloat.leb 0%float x && PrimFloat.ltb x 6%float = true <->
  exists g, A.index_floor A.grades 0%float x = Some g.
Proof.
  rewrite index_floor_grades. split.
  - intros H. apply andb_true_iff in H as [H0 H6]. rewrite H0. cbn [andb].
    destruct (PrimFloat.ltb x 1%float) eqn:L1; [eexists; reflexivity|].
    rewrite (float_leb_of_not_ltb x 1%float H0 eq_refl L1). cbn [andb].
    destruct (PrimFloat.ltb x 2%float) eqn:L2; [eexists; reflexivity|].
    rewrite (float_leb_of_not_ltb x 2%float H0 eq_refl L2). cbn [andb].
    destruct (PrimFloat.ltb x 3%float) eqn:L3; [eexists; reflexivity|].
    rewrite (float_leb_of_not_ltb x 3%float H0 eq_refl L3). cbn [andb].
    destruct (PrimFloat.ltb x 4%float) eqn:L4; [eexists; reflexivity|].
    rewrite (float_leb_of_not_ltb x 4%float H0 eq_refl L4). cbn [andb].
    destruct (PrimFloat.ltb x 5%float) eqn:L5; [eexists; reflexivity|].
    rewrite (float_leb_of_not_ltb x 5%float H0 eq_refl L5). cbn [andb].
    rewrite H6. eexists; reflexivity.
  - intros [g H].
    assert (Hk : exists k k',
               PrimFloat.leb 0%float k = true /\ PrimFloat.leb k' 6%float = true /\
               PrimFloat.leb k x = true /\ PrimFloat.ltb x k' = true).
    { repeat match type of H with
        | (if ?a && ?b then _ else _) = _ =>
            destruct a eqn:?; destruct b eqn:?; cbn [andb] in H
        end;
        try discriminate H;
        match goal with
        | Hl : PrimFloat.leb ?k x = true, Hu : PrimFloat.ltb x ?k' = true |- _ =>
            exists k, k'; repeat split; assumption || reflexivity
        end. }
    destruct Hk as (k & k' & H0k & Hk6 & Hkx & Hxk).
    apply andb_true_iff. split.
    + exact (float_leb_trans _ _ _ H0k Hkx).
    + exact (float_ltb_leb_trans _ _ _ Hxk Hk6).
Qed.

(** X16: [checkSSL] returns a record exactly when the product of its draw
    by six, as a double, is at least 0 and below 6; for any other product
    (negative, 6 or more, NaN) the grade is undefined and the call throws
    a TypeError. *)
Theorem checkSSL_returns_iff_in_range :
  forall draw : float,
    let x := PrimFloat.mul draw 6%float in
    (PrimFloat.leb 0%float x && PrimFloat.ltb x 6%float = true <->
     exists r, A.checkSSL draw = Ok r) /\
    (PrimFloat.leb 0%float x && PrimFloat.ltb x 6%float = false <->
     A.checkSSL draw = Thrw (ErrorObj TypeErrorC A.undefined_message)).
Proof.
  intros draw x.
  pose proof (index_floor_in_range x) as Hr. unfold A.checkSSL. fold x.
  destruct (A.index_floor A.grades 0%float x) as [g|] eqn:Hg.
  - assert (Hin : PrimFloat.leb 0%float x && PrimFloat.ltb x 6%float = true)
      by (apply Hr; now exists g).
    rewrite Hin. split; split; try discriminate.
    + intros _. eexists; reflexivity.
    + reflexivity.
  - destruct (PrimFloat.leb 0%float x && PrimFloat.ltb x 6%float) eqn:Hin.
    + destruct (proj1 Hr eq_refl) as [g' Hg']. discriminate Hg'.
    + split; split; try reflexivity; try discriminate.
      intros [r H]. discriminate H.
Qed.

Lemma checkSSL_returns_iff_in_range_witness :
  (exists r, A.checkSSL 0.99%float = Ok r) /\
  A.checkSSL 1%float = Thrw (ErrorObj TypeErrorC A.undefined_message).
Proof.
  split.
  - apply (checkSSL_returns_iff_in_range 0.99%float). reflexivity.
  - apply (checkSSL_returns_iff_in_range 1%float). reflexivity.
Defined.

(** ** The async functions and the event loop *)

(** X17: run to its end from an idle state, each async function is the
    event loop's run in which the button is activated and its awaited
    promises settle in turn: the two timers for [handleScan], the 1.5 s one
    first; the request and the reading of its body for [checkSafety].  The
    final state and the events are the same, and no scan is left
    pending. *)
Theorem async_functions_are_runs :
  forall (URL_new : URLConstructor) (network : jsstring -> B.FetchOutcome)
         (d : A.Draws) (sa : A.State) (sb : B.State),
    (A.isScanning sa = false ->
     let c := A.run URL_new (A.mkConfig sa A.Idle [])
                [A.Activate; A.SafeBrowsingTimer (A.sb_draw d);
                 A.SslTimer (A.ssl_draw d)] in
     A.handleScan URL_new d sa = (Ok tt, A.st c, A.log c) /\
     A.phase c = A.Idle)
    /\
    (B.isChecking sb = false ->
     let settled :=
       match B.validateUrl URL_new (trim (B.url sb)) with
       | Ok v => network v
       | Thrw e => B.FetchRejects e
       end in
     let c := B.run URL_new (B.mkConfig sb B.Idle [])
                [B.Click; B.FetchSettled settled; B.JsonSettled] in
     B.checkSafety URL_new network sb = (Ok tt, B.st c, B.log c) /\
     B.phase c = B.Idle).
Proof.
  intros URL_new network d sa sb. split; intros Hidle.
  - destruct (handleScan_as_run URL_new d sa [] Hidle) as (l & Hrun & Hlog & Hph).
    cbv zeta. rewrite Hlog. split; [exact Hrun|exact Hph].
  - destruct (checkSafety_as_run URL_new network sb [] Hidle)
      as (l & Hrun & Hlog & Hph).
    cbv zeta. rewrite Hlog. split; [exact Hrun|exact Hph].
Qed.

Lemma async_functions_are_runs_witness :
  A.phase (A.run WHATWG.strict
             (A.mkConfig (A.mkState (lit "example.com") false None) A.Idle [])
             [A.Activate; A.SafeBrowsingTimer 0.5%float; A.SslTimer 0.5%float])
    = A.Idle /\
  B.phase (B.run WHATWG.strict
             (B.mkConfig (B.mkState (lit "example.com") false None) B.Idle [])
             [B.Click; B.FetchSettled (B.FetchRejects NonError); B.JsonSettled])
    = B.Idle.
Proof.
  destruct (async_functions_are_runs WHATWG.strict
              (fun _ => B.FetchRejects NonError)
              (A.mkDraws 0.5%float 0.5%float)
              (A.mkState (lit "example.com") false None)
              (B.mkState (lit "example.com") false None))
    as [Ha Hb].
  split.
  - exact (proj2 (Ha eq_refl)).
  - exact (proj2 (Hb eq_refl)).
Defined.

(** ** Component A: what the checks are run on *)

(** X18: [handleScan] sets a timer only for a URL that validated; it then
    sets exactly two, of 1500 and 2000 ms, right after the flag is set and
    the results cleared, and the two checks log the hostname [validateUrl]
    returned, not the text that was typed. *)
Theorem checks_run_on_hostname :
  forall (URL_new : URLConstructor) (d : A.Draws) (s s' : A.State)
         (l : list A.Event) (c : Result unit) (ms : N),
    A.handleScan URL_new d s = (c, s', l) ->
    In (A.ESetTimeout ms) l ->
    is_empty (trim (A.url s)) = false /\
    exists domain rest,
      A.validateUrl URL_new (trim (A.url s)) = Ok domain /\
      l = [A.ESetIsScanning true; A.ESetResults None;
           A.EConsoleLog (lit "Checking Safe Browsing for:") domain;
           A.ESetTimeout 1500;
           A.EConsoleLog (lit "Checking SSL for:") domain;
           A.ESetTimeout 2000] ++ rest /\
      A.timers rest = [] /\
      (ms = 1500%N \/ ms = 2000%N).
Proof.
  intros URL_new d s s' l c ms Hrun Hin.
  destruct (is_empty (trim (A.url s))) eqn:He.
  { rewrite (handleScan_empty URL_new d s He) in Hrun.
    injection Hrun as _ _ <-. destruct Hin as [Hin|[]]. discriminate Hin. }
  split; [reflexivity|].
  rewrite (handleScan_paths URL_new d s He) in Hrun.
  destruct (A.validateUrl URL_new (trim (A.url s))) as [domain|e].
  - exists domain. cbv zeta in Hrun.
    destruct (A.checkSSL (A.ssl_draw d)) as [ssl|e];
      injection Hrun as _ _ <-; eexists;
      (split; [reflexivity|]); (split; [reflexivity|]); (split; [reflexivity|]);
      cbn [app In] in Hin;
      repeat (destruct Hin as [Hin|Hin]; [try discriminate Hin|]);
      try contradiction;
      injection Hin as <-; auto.
  - injection Hrun as _ _ <-.
    destruct Hin as [Hin|[Hin|[]]]; discriminate Hin.
Qed.

Lemma checks_run_on_hostname_witness :
  exists domain rest,
    A.validateUrl WHATWG.strict (trim (lit " https://Example.com/path ")) = Ok domain /\
    fst (fst (A.handleScan WHATWG.strict (A.mkDraws 0.5%float 0.5%float)
                (A.mkState (lit " https://Example.com/path ") false None))) = Ok tt /\
    domain = lit "example.com" /\
    A.timers rest = [].
Proof.
  destruct (checks_run_on_hostname WHATWG.strict (A.mkDraws 0.5%float 0.5%float)
              (A.mkState (lit " https://Example.com/path ") false None)
              _ _ _ 1500%N eq_refl)
    as (_ & domain & rest & Hv & _ & Ht & _).
  - cbn. right. right. right. left. reflexivity.
  - exists domain, rest. split; [exact Hv|]. split; [reflexivity|].
    split; [|exact Ht].
    vm_compute in Hv. injection Hv as <-. reflexivity.
Defined.

(** ** The mock list of safe names *)

(** X19: the mock list is matched by containment: a domain with
    "google.com", "github.com" or "stackoverflow.com" anywhere inside it,
    also inside a longer name, is answered safe whatever the draw; a domain
    with none of them is answered by the draw alone, safe exactly above
    0.3. *)
Theorem safe_names_match_by_containment :
  forall (before after domain : jsstring) (draw : float),
    (forall name,
       In name A.mockSafeResults ->
       A.checkSafeBrowsing (before ++ name ++ after) draw
         = A.mkSafeBrowsing A.safe (lit "No threats detected")) /\
    ((forall name a b, In name A.mockSafeResults -> domain <> a ++ name ++ b) ->
     A.checkSafeBrowsing domain draw
       = if PrimFloat.ltb 0.3%float draw
         then A.mkSafeBrowsing A.safe (lit "No threats detected")
         else A.mkSafeBrowsing A.unsafe (lit "Potential security threats found")).
Proof.
  intros before after domain draw. split.
  - intros name Hin. unfold A.checkSafeBrowsing.
    assert (He : existsb (fun safe => includes (before ++ name ++ after) safe)
                   A.mockSafeResults = true).
    { apply existsb_exists. exists name. split; [exact Hin|].
      apply includes_split. now exists before, after. }
    rewrite He. reflexivity.
  - intros Hno. unfold A.checkSafeBrowsing.
    assert (He : existsb (fun safe => includes domain safe) A.mockSafeResults = false).
    { destruct (existsb (fun safe => includes domain safe) A.mockSafeResults) eqn:E;
        [|reflexivity].
      apply existsb_exists in E as (name & Hin & Hinc).
      apply includes_split in Hinc as (a & b & Hd).
      exfalso. exact (Hno name a b Hin Hd). }
    rewrite He. cbn [orb]. now destruct (PrimFloat.ltb 0.3%float draw).
Qed.

Lemma safe_names_match_by_containment_witness :
  A.checkSafeBrowsing (lit "not" ++ lit "google.com" ++ lit ".example.org") 0%float
    = A.mkSafeBrowsing A.safe (lit "No threats detected") /\
  A.checkSafeBrowsing (lit "example.com") 0.25%float
    = A.mkSafeBrowsing A.unsafe (lit "Potential security threats found").
Proof.
  destruct (safe_names_match_by_containment (lit "not") (lit ".example.org")
              (lit "example.com") 0.25%float) as [Hin Hout].
  split.
  - exact (Hin (lit "google.com") (or_introl eq_refl)).
  - apply Hout. intros name a b Hname Hd.
    assert (Hc : includes (lit "example.com") name = true)
      by (apply includes_split; now exists a, b).
    destruct Hname as [<-|[<-|[<-|[]]]]; vm_compute in Hc; discriminate Hc.
Defined.
